(** * QE-Demo: configuration selection and the CSV-backed admin store

    A shallow embedding of [config/server.py] and [server.py]:

    - the configuration classes and the [config] dictionary;
    - the module-level start-up code of [server.py] (environment lookup,
      profile selection, storage path, creation of the storage file);
    - the two record routes [save_admin] and [load_admins] and the
      [atexit] hook [clear_csv_cache].

    The handlers talk to the file through Python's [csv] module, so the part
    of that module they use ([csv.writer], [csv.DictWriter], [csv.reader],
    [csv.DictReader], default "excel" dialect) is embedded as well, at the
    level of characters, after CPython's [Modules/_csv.c] and [Lib/csv.py]
    (version 3.11 and later, where the end of a line is a marker of its own
    and not the NUL character): the writer's quoting rules and the reader's
    state machine, including the reader's field size limit.

    Conventions:
    - text is [string]; a character is an [ascii] code standing for one
      code point that UTF-8 can encode, and a file holds its decoded text;
      a [str] of the request that holds a lone surrogate, which UTF-8
      cannot encode, is a value of its own ([JSurrogate]), and writing it
      raises;
    - paths are POSIX paths;
    - a handler is a function from the world (the files, and the list of
      [open] calls made so far) to its response and the new world;
    - [request.json] is given as the parsed value; [print] and
      [app.logger.error] leave no trace in the model. *)

From Stdlib Require Import ZArith NArith Ascii String List Bool Lia.
From stdpp Require Import base option list gmap strings pretty.

Local Open Scope Z_scope.

(** ** Python values, exceptions and results *)

(** What [request.json] can hold under a key.  Floats, arrays and nested
    objects are kept abstract: the handler only ever tests such a value for
    truth, compares it with a [str] and hands it to [str()], so [JOther]
    carries the truth value and the [str()] text (which escapes every
    surrogate).

    [JStr s] is a [str] that UTF-8 can encode.  [JSurrogate] is a [str]
    that holds a lone surrogate (JSON's escape [\ud800] gives one): it is
    not empty, it differs from every text read from a UTF-8 file, and the
    file's encoder refuses it; the handlers see nothing else of it. *)
Inductive json : Type :=
| JNull
| JBool (b : bool)
| JInt (z : Z)
| JStr (s : string)
| JSurrogate
| JOther (truth : bool) (text : string).

Inductive exn : Type :=
| KeyError (key : string)
| AttributeError
| ValueError
| TypeError
| UnicodeEncodeError
| FileNotFoundError (path : string)
| CsvError (msg : string).

Inductive result (A : Type) : Type :=
| Return (a : A)
| Raise (e : exn).
Arguments Return {A} a.
Arguments Raise {A} e.

(** [s == ""], by looking at the first character only. *)
Definition is_empty (s : string) : bool :=
  match s with
  | EmptyString => true
  | String _ _ => false
  end.

(** Python's truth test ([not x] is its negation). *)
Definition truthy (v : json) : bool :=
  match v with
  | JNull => false
  | JBool b => b
  | JInt z => negb (z =? 0)
  | JStr s => negb (is_empty s)
  | JSurrogate => true
  | JOther t _ => t
  end.

(** Whether UTF-8 can encode the text of the value. *)
Definition encodable (v : json) : bool :=
  match v with
  | JSurrogate => false
  | _ => true
  end.

(** [str(v)] for the values the csv writer converts itself.  The characters
    of a [str] with a lone surrogate are not represented: no line that holds
    one reaches a file. *)
Definition py_str (v : json) : string :=
  match v with
  | JNull => "None"
  | JBool true => "True"
  | JBool false => "False"
  | JInt z => pretty z
  | JStr s => s
  | JSurrogate => ""
  | JOther _ t => t
  end.

(** ** config/server.py *)

Record profile : Type := {
  DEBUG : bool;
  TESTING : bool;
  CSRF_ENABLED : bool;
  SECRET_KEY : string;
  SESSION_TYPE : string;
  PERMANENT_SESSION_LIFETIME : Z;
  MAX_CONTENT_LENGTH : Z;
  CSV_FILE_PATH : string;
  CSV_HEADERS : list string;
  (* attributes that only some subclasses define *)
  DEVELOPMENT : option bool;
  SESSION_COOKIE_SECURE : option bool;
  SESSION_COOKIE_HTTPONLY : option bool;
  SESSION_COOKIE_SAMESITE : option string;
  WTF_CSRF_ENABLED : option bool
}.

Definition Config : profile := {|
  DEBUG := false;
  TESTING := false;
  CSRF_ENABLED := true;
  SECRET_KEY := "this-should-be-changed-in-production";
  SESSION_TYPE := "filesystem";
  PERMANENT_SESSION_LIFETIME := 3600;
  MAX_CONTENT_LENGTH := 16 * 1024 * 1024;
  CSV_FILE_PATH := "src/models/data/users.csv";
  CSV_HEADERS := ["username"; "email"; "password"; "role"; "created"];
  DEVELOPMENT := None;
  SESSION_COOKIE_SECURE := None;
  SESSION_COOKIE_HTTPONLY := None;
  SESSION_COOKIE_SAMESITE := None;
  WTF_CSRF_ENABLED := None
|}.

(** [class ProductionConfig(Config)]: the conditional expression tests a
    literal, non-empty string. *)
Definition ProductionConfig : profile := {|
  DEBUG := false;
  TESTING := TESTING Config;
  CSRF_ENABLED := CSRF_ENABLED Config;
  SECRET_KEY := "${SECRET_KEY}";
  SESSION_TYPE := SESSION_TYPE Config;
  PERMANENT_SESSION_LIFETIME := PERMANENT_SESSION_LIFETIME Config;
  MAX_CONTENT_LENGTH := MAX_CONTENT_LENGTH Config;
  CSV_FILE_PATH :=
    if truthy (JStr "${CSV_FILE_PATH}") then "${CSV_FILE_PATH}"
    else "src/models/data/users.csv";
  CSV_HEADERS := CSV_HEADERS Config;
  DEVELOPMENT := DEVELOPMENT Config;
  SESSION_COOKIE_SECURE := SESSION_COOKIE_SECURE Config;
  SESSION_COOKIE_HTTPONLY := SESSION_COOKIE_HTTPONLY Config;
  SESSION_COOKIE_SAMESITE := SESSION_COOKIE_SAMESITE Config;
  WTF_CSRF_ENABLED := WTF_CSRF_ENABLED Config
|}.

Definition DevelopmentConfig : profile := {|
  DEBUG := true;
  TESTING := TESTING Config;
  CSRF_ENABLED := CSRF_ENABLED Config;
  SECRET_KEY := SECRET_KEY Config;
  SESSION_TYPE := SESSION_TYPE Config;
  PERMANENT_SESSION_LIFETIME := PERMANENT_SESSION_LIFETIME Config;
  MAX_CONTENT_LENGTH := MAX_CONTENT_LENGTH Config;
  CSV_FILE_PATH := CSV_FILE_PATH Config;
  CSV_HEADERS := CSV_HEADERS Config;
  DEVELOPMENT := Some true;
  SESSION_COOKIE_SECURE := Some false;
  SESSION_COOKIE_HTTPONLY := Some true;
  SESSION_COOKIE_SAMESITE := Some "Lax";
  WTF_CSRF_ENABLED := WTF_CSRF_ENABLED Config
|}.

Definition TestingConfig : profile := {|
  DEBUG := true;
  TESTING := true;
  CSRF_ENABLED := CSRF_ENABLED Config;
  SECRET_KEY := SECRET_KEY Config;
  SESSION_TYPE := SESSION_TYPE Config;
  PERMANENT_SESSION_LIFETIME := PERMANENT_SESSION_LIFETIME Config;
  MAX_CONTENT_LENGTH := MAX_CONTENT_LENGTH Config;
  CSV_FILE_PATH := "src/models/data/test_users.csv";
  CSV_HEADERS := CSV_HEADERS Config;
  DEVELOPMENT := DEVELOPMENT Config;
  SESSION_COOKIE_SECURE := SESSION_COOKIE_SECURE Config;
  SESSION_COOKIE_HTTPONLY := SESSION_COOKIE_HTTPONLY Config;
  SESSION_COOKIE_SAMESITE := SESSION_COOKIE_SAMESITE Config;
  WTF_CSRF_ENABLED := Some false
|}.

(** The dictionary mapping config names to config classes. *)
Definition config : gmap string profile :=
  <["development" := DevelopmentConfig]>
  (<["testing" := TestingConfig]>
  (<["production" := ProductionConfig]>
  (<["default" := DevelopmentConfig]> ∅))).

(** [d[k]]: a missing key raises [KeyError]. *)
Definition getitem {V : Type} (d : gmap string V) (k : string) : result V :=
  match d !! k with
  | Some v => Return v
  | None => Raise (KeyError k)
  end.

(** [os.getenv(key, default)] over the process environment. *)
Definition os_getenv (environ : gmap string string) (key dflt : string) : string :=
  default dflt (environ !! key).

(** ** Text helpers *)

Definition CR : ascii := "013"%char.
Definition LF : ascii := "010"%char.
Definition CRLF : string := String CR (String LF "").

Fixpoint endswith (s : string) (c : ascii) : bool :=
  match s with
  | EmptyString => false
  | String a EmptyString => Ascii.eqb a c
  | String _ rest => endswith rest c
  end.

Definition startswith (s : string) (c : ascii) : bool :=
  match s with
  | String a _ => Ascii.eqb a c
  | EmptyString => false
  end.

(** [os.path.join(a, b)] of posixpath. *)
Definition os_path_join (a b : string) : string :=
  if startswith b "/" then b
  else if is_empty a || endswith a "/" then a +:+ b
  else a +:+ "/" +:+ b.

(** ** The csv module, "excel" dialect

    delimiter [,], quotechar the double quote, doublequote on, no
    escapechar, skipinitialspace off, lineterminator CR LF, QUOTE_MINIMAL,
    not strict.  The states that only an escapechar reaches are left out. *)
Module csv.

Definition delimiter : ascii := ","%char.
Definition quotechar : ascii := "034"%char.
Definition lineterminator : string := CRLF.

(** [csv.field_size_limit()]: 128 * 1024. *)
Definition field_size_limit : N := 131072.

(** *** Writer *)

(** Characters that force a field into quotes. *)
Definition special (c : ascii) : bool :=
  Ascii.eqb c delimiter || Ascii.eqb c quotechar ||
  Ascii.eqb c LF || Ascii.eqb c CR.

Fixpoint must_quote (data : string) : bool :=
  match data with
  | EmptyString => false
  | String c rest => special c || must_quote rest
  end.

(** The copy phase of [join_append_data]: a quotechar is doubled. *)
Fixpoint escape (data : string) : string :=
  match data with
  | EmptyString => EmptyString
  | String c rest =>
      if Ascii.eqb c quotechar then String quotechar (String c (escape rest))
      else String c (escape rest)
  end.

(** The record buffer of a writer: the text so far and [num_fields]. *)
Record Writer : Type := { rec : string; num_fields : nat }.

(** [join_append(self, field, quoted)]; [field = None] is the C NULL. *)
Definition join_append (self : Writer) (field : option string) (quoted : bool) : Writer :=
  let data := default "" field in
  let quoted := quoted || must_quote data in
  let sep := if (0 <? num_fields self)%nat then String delimiter "" else "" in
  let body :=
    if quoted then String quotechar (escape data +:+ String quotechar "")
    else escape data in
  {| rec := rec self +:+ sep +:+ body; num_fields := S (num_fields self) |}.

(** One field of [csv_writerow]: a [str] is taken as it is, [None] gives an
    empty field, anything else goes through [str()]. *)
Definition append_field (self : Writer) (field : json) : Writer :=
  match field with
  | JStr s => join_append self (Some s) false
  | JNull => join_append self None false
  | v => join_append self (Some (py_str v)) false
  end.

(** The text of the line that [writer.writerow(row)] builds from values
    UTF-8 can encode. *)
Definition writerow (row : list json) : string :=
  let self := fold_left append_field row {| rec := ""; num_fields := 0 |} in
  let self :=
    if (0 <? num_fields self)%nat && is_empty (rec self)
    then join_append {| rec := rec self; num_fields := pred (num_fields self) |} None true
    else self in
  rec self +:+ lineterminator.

(** What a writer hands to the file's [write]: the text of the line, or a
    line that holds a lone surrogate. *)
Inductive line : Type :=
| Line (text : string)
| Unencodable.

(** [writer.writerow(row)], up to the call of [write]. *)
Definition writer_writerow (row : list json) : line :=
  if forallb encodable row then Line (writerow row) else Unencodable.

Definition dict_get {V : Type} (d : list (string * V)) (k : string) (dflt : V) : V :=
  default dflt (snd <$> List.find (fun kv => String.eqb kv.1 k) d).

(** [DictWriter(f, fieldnames).writerow(rowdict)] with restval the empty
    string and extrasaction "raise". *)
Definition DictWriter_writerow (fieldnames : list string) (rowdict : list (string * json))
  : result line :=
  if forallb (fun kv => existsb (String.eqb kv.1) fieldnames) rowdict
  then Return (writer_writerow (map (fun k => dict_get rowdict k (JStr "")) fieldnames))
  else Raise ValueError.

(** *** Reader *)

(** Iterating a text file opened with [newline=""]: a line ends after LF,
    after a CR that no LF follows, and at the end of the text; the line
    endings stay in the lines. *)
Definition ends_line (c : ascii) (rest : string) : bool :=
  Ascii.eqb c LF || (Ascii.eqb c CR && negb (startswith rest LF)) ||
  is_empty rest.

Fixpoint readlines (s : string) : list string :=
  match s with
  | EmptyString => []
  | String c rest =>
      if ends_line c rest then String c "" :: readlines rest
      else match readlines rest with
           | l :: ls => String c l :: ls
           | [] => [String c ""]
           end
  end.

Inductive ParserState : Type :=
| START_RECORD | START_FIELD | IN_FIELD
| IN_QUOTED_FIELD | QUOTE_IN_QUOTED_FIELD | EAT_CRNL.

(** The parser part of a reader object; [field] is the field buffer, last
    character first. *)
Record Reader : Type := {
  fields : list string;
  field : list ascii;
  field_len : N;
  state : ParserState
}.

Definition set_state (self : Reader) (st : ParserState) : Reader :=
  {| fields := fields self; field := field self;
     field_len := field_len self; state := st |}.

Definition parse_reset : Reader :=
  {| fields := []; field := []; field_len := 0; state := START_RECORD |}.

Definition parse_save_field (self : Reader) : Reader :=
  {| fields := fields self ++ [string_of_list_ascii (rev (field self))];
     field := []; field_len := 0; state := state self |}.

Definition parse_add_char (self : Reader) (c : ascii) : result Reader :=
  if (field_size_limit <=? field_len self)%N
  then Raise (CsvError "field larger than field limit (131072)")
  else Return {| fields := fields self; field := c :: field self;
                 field_len := N.succ (field_len self); state := state self |}.

(** What [parse_process_char] is fed: a character of the line, or the end
    of line marker passed after each line. *)
Inductive input : Type := Ch (c : ascii) | EOL.

Definition is_newline (c : ascii) : bool := Ascii.eqb c LF || Ascii.eqb c CR.

Definition then_state (r : result Reader) (st : ParserState) : result Reader :=
  match r with
  | Return self => Return (set_state self st)
  | Raise e => Raise e
  end.

(** [case START_FIELD]. *)
Definition start_field (self : Reader) (c : input) : result Reader :=
  match c with
  | EOL => Return (set_state (parse_save_field self) START_RECORD)
  | Ch a =>
      if is_newline a then Return (set_state (parse_save_field self) EAT_CRNL)
      else if Ascii.eqb a quotechar then Return (set_state self IN_QUOTED_FIELD)
      else if Ascii.eqb a delimiter then Return (parse_save_field self)
      else then_state (parse_add_char self a) IN_FIELD
  end.

Definition parse_process_char (self : Reader) (c : input) : result Reader :=
  match state self with
  | START_RECORD =>
      match c with
      | EOL => Return self
      | Ch a =>
          if is_newline a then Return (set_state self EAT_CRNL)
          else start_field (set_state self START_FIELD) c
      end
  | START_FIELD => start_field self c
  | IN_FIELD =>
      match c with
      | EOL => Return (set_state (parse_save_field self) START_RECORD)
      | Ch a =>
          if is_newline a then Return (set_state (parse_save_field self) EAT_CRNL)
          else if Ascii.eqb a delimiter
          then Return (set_state (parse_save_field self) START_FIELD)
          else parse_add_char self a
      end
  | IN_QUOTED_FIELD =>
      match c with
      | EOL => Return self
      | Ch a =>
          if Ascii.eqb a quotechar then Return (set_state self QUOTE_IN_QUOTED_FIELD)
          else parse_add_char self a
      end
  | QUOTE_IN_QUOTED_FIELD =>
      match c with
      | EOL => Return (set_state (parse_save_field self) START_RECORD)
      | Ch a =>
          if Ascii.eqb a quotechar
          then then_state (parse_add_char self a) IN_QUOTED_FIELD
          else if Ascii.eqb a delimiter
          then Return (set_state (parse_save_field self) START_FIELD)
          else if is_newline a
          then Return (set_state (parse_save_field self) EAT_CRNL)
          else then_state (parse_add_char self a) IN_FIELD
      end
  | EAT_CRNL =>
      match c with
      | EOL => Return (set_state self START_RECORD)
      | Ch a =>
          if is_newline a then Return self
          else Raise (CsvError "new-line character seen in unquoted field - do you need to open the file with newline=''?")
      end
  end.

(** The characters of one line, then the end of line marker. *)
Fixpoint parse_line (self : Reader) (line : string) : result Reader :=
  match line with
  | EmptyString => parse_process_char self EOL
  | String c rest =>
      match parse_process_char self (Ch c) with
      | Return self' => parse_line self' rest
      | Raise e => Raise e
      end
  end.

(** A Python iterator, as the finite sequence of what successive [next]
    calls give: items, then [StopIteration] or an exception. *)
Inductive iter (A : Type) : Type :=
| Stop
| Fail (e : exn)
| Yield (a : A) (rest : iter A).
Arguments Stop {A}.
Arguments Fail {A} e.
Arguments Yield {A} a rest.

(** [Reader_iternext], called again and again: lines are consumed until the
    parser is back in START_RECORD; when the lines run out inside a record,
    the pending field is saved and the record returned. *)
Fixpoint reader_from (self : Reader) (lines : list string) : iter (list string) :=
  match lines with
  | [] =>
      if negb (field_len self =? 0)%N
         || match state self with IN_QUOTED_FIELD => true | _ => false end
      then Yield (fields (parse_save_field self)) Stop
      else Stop
  | line :: rest =>
      match parse_line self line with
      | Raise e => Fail e
      | Return self' =>
          match state self' with
          | START_RECORD => Yield (fields self') (reader_from parse_reset rest)
          | _ => reader_from self' rest
          end
      end
  end.

Definition reader (lines : list string) : iter (list string) :=
  reader_from parse_reset lines.

(** A row of a [DictReader]: the values under the field names ([None]
    where the row is short) and, where the row is long, the surplus values
    under the key [None] (the default restkey). *)
Record row : Type := {
  named : gmap string (option string);
  surplus : option (list string)
}.

(** [dict(zip(fieldnames, values))] and the two adjustments of
    [DictReader.__next__]. *)
Definition make_row (fieldnames values : list string) : row :=
  let d := fold_left (fun d kv => <[kv.1 := Some kv.2]> d)
                     (zip fieldnames values) (∅ : gmap string (option string)) in
  let lf := length fieldnames in
  let lr := length values in
  if (lf <? lr)%nat then {| named := d; surplus := Some (drop lf values) |}
  else if (lr <? lf)%nat
  then {| named := fold_left (fun d k => <[k := None]> d) (drop lr fieldnames) d;
          surplus := None |}
  else {| named := d; surplus := None |}.

(** The rows after the header: empty rows are skipped. *)
Fixpoint dict_rows (fieldnames : list string) (it : iter (list string)) : iter row :=
  match it with
  | Stop => Stop
  | Fail e => Fail e
  | Yield [] rest => dict_rows fieldnames rest
  | Yield values rest => Yield (make_row fieldnames values) (dict_rows fieldnames rest)
  end.

(** [csv.DictReader(f)]: the first row gives the field names. *)
Definition DictReader (text : string) : iter row :=
  match reader (readlines text) with
  | Stop => Stop
  | Fail e => Fail e
  | Yield fieldnames rest => dict_rows fieldnames rest
  end.

End csv.

(** ** The outside world: files, and which of them were opened *)

Inductive open_mode : Type := mode_r | mode_w | mode_a.

Record world : Type := {
  files : gmap string string;
  opened : list (string * open_mode)
}.

(** Code that may change the world and may raise. *)
Definition M (A : Type) : Type := world -> result A * world.

Definition ret {A : Type} (a : A) : M A := fun w => (Return a, w).
Definition raise {A : Type} (e : exn) : M A := fun w => (Raise e, w).
Definition bind {A B : Type} (m : M A) (k : A -> M B) : M B :=
  fun w => match m w with
           | (Return a, w') => k a w'
           | (Raise e, w') => (Raise e, w')
           end.
Definition lift {A : Type} (r : result A) : M A := fun w => (r, w).

Notation "x <- m ;; k" := (bind m (fun x => k))
  (at level 100, m at next level, right associativity).
Notation "m ;;; k" := (bind m (fun _ => k))
  (at level 100, right associativity).

Definition log_open (path : string) (md : open_mode) (w : world) : world :=
  {| files := files w; opened := opened w ++ [(path, md)] |}.

(** [open(path, "r")] and reading the text. *)
Definition open_r (path : string) : M string :=
  fun w =>
    let w' := log_open path mode_r w in
    match files w !! path with
    | Some text => (Return text, w')
    | None => (Raise (FileNotFoundError path), w')
    end.

(** [open(path, "w")]: the file is created or truncated. *)
Definition open_w (path : string) : M unit :=
  fun w =>
    (Return tt, {| files := <[path := ""]> (files w);
                   opened := opened w ++ [(path, mode_w)] |}).

(** [open(path, "a")]: the file is created when missing. *)
Definition open_a (path : string) : M unit :=
  fun w =>
    (Return tt, {| files := <[path := default "" (files w !! path)]> (files w);
                   opened := opened w ++ [(path, mode_a)] |}).

(** [write] on a file open for writing or appending, with
    [encoding="utf-8"]: the line is encoded before any of it is written, so
    a line with a lone surrogate raises and leaves the file as it is. *)
Definition file_write (path : string) (l : csv.line) : M unit :=
  fun w =>
    match l with
    | csv.Line text =>
        (Return tt, {| files := <[path := default "" (files w !! path) +:+ text]> (files w);
                       opened := opened w |})
    | csv.Unencodable => (Raise UnicodeEncodeError, w)
    end.

Definition os_path_exists (path : string) : M bool :=
  fun w => (Return (bool_decide (is_Some (files w !! path))), w).

(** ** server.py *)

(** The module's globals. *)
Record server : Type := {
  env : string;
  app_config : profile;
  BASE_DIR : string;
  DATA_DIR : string;
  csv_file_path : string
}.

Definition header : list json :=
  [JStr "username"; JStr "email"; JStr "password"; JStr "role"; JStr "created"].

(** Lines 10-23: [environ] is the process environment, [base_dir] the
    directory of server.py. *)
Definition globals (environ : gmap string string) (base_dir : string) : result server :=
  let env := os_getenv environ "FLASK_ENV" "development" in
  match getitem config env with
  | Raise e => Raise e
  | Return app_config =>
      let DATA_DIR :=
        os_path_join (os_path_join (os_path_join base_dir "src") "models") "data" in
      Return {| env := env; app_config := app_config; BASE_DIR := base_dir;
                DATA_DIR := DATA_DIR;
                csv_file_path := os_path_join DATA_DIR "users.csv" |}
  end.

(** Lines 26-31: ensure the CSV file exists. *)
Definition ensure_csv_file (m : server) : M unit :=
  ex <- os_path_exists (csv_file_path m) ;;
  if ex then ret tt
  else (open_w (csv_file_path m) ;;;
        file_write (csv_file_path m) (csv.writer_writerow header)).

(** Importing the module. *)
Definition startup (environ : gmap string string) (base_dir : string) : M server :=
  m <- lift (globals environ base_dir) ;;
  ensure_csv_file m ;;;
  ret m.

(** The cleanup function registered with [atexit]. *)
Definition clear_csv_cache (m : server) : M unit :=
  open_w (csv_file_path m) ;;;
  file_write (csv_file_path m) (csv.writer_writerow header).

(** The parsed request body: a JSON object, or any other JSON value. *)
Inductive request_json : Type :=
| Object (data : gmap string json)
| NotObject.

(** [data.get(key)] and [data.get(key, default)]; on a value that is not a
    dict the attribute lookup fails. *)
Definition get (data : request_json) (key : string) (dflt : json) : result json :=
  match data with
  | Object d => Return (default dflt (d !! key))
  | NotObject => Raise AttributeError
  end.

(** The message of a response: a literal, or [str(e)] of a caught
    exception. *)
Inductive message : Type :=
| Text (s : string)
| StrOf (e : exn).

(** The body and status of a response: [{"success": .., "message": ..}]
    or the list of row dicts. *)
Inductive response : Type :=
| JsonDict (success : bool) (msg : message) (status : Z)
| JsonList (admins : list csv.row) (status : Z).

Definition status_code (r : response) : Z :=
  match r with
  | JsonDict _ _ st => st
  | JsonList _ st => st
  end.

(** [try: ... except Exception as e: return jsonify(...), 500]. *)
Definition try_except (body : M response) : world -> response * world :=
  fun w =>
    match body w with
    | (Return r, w') => (r, w')
    | (Raise e, w') => (JsonDict false (StrOf e) 500, w')
    end.

(** [row["email"] == email]: a cell of a row is a [str] or [None]. *)
Definition cell_eq (cell : option string) (v : json) : bool :=
  match cell, v with
  | Some s, JStr t => String.eqb s t
  | None, JNull => true
  | _, _ => false
  end.

(** The duplicate check, lines 72-74: [true] when the loop returns. *)
Fixpoint email_exists (rows : csv.iter csv.row) (email : json) : result bool :=
  match rows with
  | csv.Stop => Return false
  | csv.Fail e => Raise e
  | csv.Yield row rest =>
      match getitem (csv.named row) "email" with
      | Raise e => Raise e
      | Return cell =>
          if cell_eq cell email then Return true else email_exists rest email
      end
  end.

Definition save_admin (m : server) (request : request_json) : world -> response * world :=
  try_except (
    let data := request in
    username <- lift (get data "username" JNull) ;;
    email <- lift (get data "email" JNull) ;;
    password <- lift (get data "password" JNull) ;;
    role <- lift (get data "role" JNull) ;;
    if negb (truthy username) || negb (truthy email)
       || negb (truthy password) || negb (truthy role)
    then ret (JsonDict false (Text "All fields are required") 400)
    else
      text <- open_r (csv_file_path m) ;;
      dup <- lift (email_exists (csv.DictReader text) email) ;;
      if dup : bool
      then ret (JsonDict false (Text "Admin with this email already exists") 409)
      else
        created <- lift (get request "created" (JStr "")) ;;
        let new_admin :=
          [("username", username); ("email", email); ("password", password);
           ("role", role); ("created", created)] in
        open_a (csv_file_path m) ;;;
        line <- lift (csv.DictWriter_writerow (map fst new_admin) new_admin) ;;
        file_write (csv_file_path m) line ;;;
        ret (JsonDict true (Text "Admin saved successfully") 200)).

(** [for row in reader: admins.append(row)]. *)
Fixpoint collect {A : Type} (it : csv.iter A) : result (list A) :=
  match it with
  | csv.Stop => Return []
  | csv.Fail e => Raise e
  | csv.Yield a rest =>
      match collect rest with
      | Return l => Return (a :: l)
      | Raise e => Raise e
      end
  end.

(** Whether the keys of a row dict can be sorted: the key [None] of the
    surplus values cannot be compared with a [str]. *)
Definition sortable (row : csv.row) : bool :=
  match csv.surplus row with
  | None => true
  | Some _ => match map_to_list (csv.named row) with [] => true | _ :: _ => false end
  end.

(** [jsonify(admins)]: every dict is written with its keys sorted. *)
Definition jsonify (admins : list csv.row) : result response :=
  if forallb sortable admins then Return (JsonList admins 200) else Raise TypeError.

Definition load_admins (m : server) : world -> response * world :=
  try_except (
    text <- open_r (csv_file_path m) ;;
    admins <- lift (collect (csv.DictReader text)) ;;
    lift (jsonify admins)).

(** A sequence of [POST /save_admin] requests, one after the other. *)
Fixpoint save_all (m : server) (requests : list request_json) (w : world)
  : list response * world :=
  match requests with
  | [] => ([], w)
  | request :: rest =>
      let (r, w1) := save_admin m request w in
      let (rs, w2) := save_all m rest w1 in
      (r :: rs, w2)
  end.

(** The profile the module ends up with, or the exception that stops the
    import. *)
Definition selected (environ : gmap string string) (base_dir : string) : result profile :=
  match globals environ base_dir with
  | Return m => Return (app_config m)
  | Raise e => Raise e
  end.

(** ** Notions used to state the properties *)

Import csv.

(** *** Texts and the reader *)

Definition slen (s : string) : N := N.of_nat (String.length s).

(** A text the reader can hold in its field buffer. *)
Definition fits (s : string) : Prop := (slen s <= field_size_limit)%N.

(** The text of one field as [join_append] lays it out. *)
Definition encode (s : string) : string :=
  if must_quote s then String quotechar (escape s +:+ String quotechar "")
  else escape s.

(** The text the writer puts into a field for a value. *)
Definition cell_text (v : json) : string :=
  match v with
  | JStr s => s
  | JNull => ""
  | v => py_str v
  end.

(** What follows the first field of a line. *)
Fixpoint tail_text (ss : list string) : string :=
  match ss with
  | [] => lineterminator
  | s :: ss => String delimiter (encode s +:+ tail_text ss)
  end.

Definition row_text (s : string) (ss : list string) : string :=
  encode s +:+ tail_text ss.

(** The field buffer after the characters of [s] went in. *)
Definition chars (s : string) : list ascii := rev (list_ascii_of_string s).

(** The fields after [parse_save_field] on the buffer [buf]. *)
Definition saved (fs : list string) (buf : list ascii) : list string :=
  fs ++ [string_of_list_ascii (rev buf)].

(** What the reader does once a line is complete. *)
Definition after_line (self : Reader) (rest : string) : iter (list string) :=
  match parse_process_char self EOL with
  | Raise e => Fail e
  | Return self' =>
      match state self' with
      | START_RECORD => Yield (fields self') (reader_from parse_reset (readlines rest))
      | _ => reader_from self' (readlines rest)
      end
  end.

Definition at_start (st : ParserState) : Prop :=
  match st with START_RECORD | START_FIELD => True | _ => False end.

Definition closes_on_delimiter (st : ParserState) : Prop :=
  match st with
  | START_RECORD | START_FIELD | IN_FIELD | QUOTE_IN_QUOTED_FIELD => True
  | _ => False
  end.

Definition closes_on_newline (st : ParserState) : Prop :=
  match st with
  | START_FIELD | IN_FIELD | QUOTE_IN_QUOTED_FIELD => True
  | _ => False
  end.

(** The iterator that gives the items of a list and stops. *)
Definition of_list {A : Type} (l : list A) : iter A := foldr Yield Stop l.

(** [yields it a]: successive [next] calls on [it] give [a] at some point,
    before any exception. *)
Inductive yields {A : Type} : iter A -> A -> Prop :=
| yields_here (a : A) (rest : iter A) : yields (Yield a rest) a
| yields_later (a b : A) (rest : iter A) : yields rest a -> yields (Yield b rest) a.

(** *** Records and the storage file *)

(** A record of the data model: five texts. *)
Record admin : Type := {
  ad_username : string;
  ad_email : string;
  ad_password : string;
  ad_role : string;
  ad_created : string
}.

Definition fieldnames : list string :=
  ["username"; "email"; "password"; "role"; "created"].

Definition admin_fields (a : admin) : list string :=
  [ad_username a; ad_email a; ad_password a; ad_role a; ad_created a].

(** The invariant of the data model: the four required texts are not
    empty. *)
Definition valid (a : admin) : Prop :=
  ad_username a <> "" /\ ad_email a <> "" /\ ad_password a <> "" /\ ad_role a <> "".

Definition admin_fits (a : admin) : Prop := Forall fits (admin_fields a).

(** The line [save_admin] appends for a record. *)
Definition admin_line (a : admin) : string :=
  csv.writerow (map JStr (admin_fields a)).

Definition header_line : string :=
  "username,email,password,role,created" +:+ CRLF.

(** A storage file as the service writes it: the header line, then one
    line per record. *)
Definition store (ads : list admin) : string :=
  csv.writerow header +:+ foldr (fun a acc => admin_line a +:+ acc) "" ads.

(** The dict [DictReader] builds from the line of a record. *)
Definition admin_row (a : admin) : csv.row :=
  {| csv.named :=
       <["username" := Some (ad_username a)]>
       (<["email" := Some (ad_email a)]>
       (<["password" := Some (ad_password a)]>
       (<["role" := Some (ad_role a)]>
       (<["created" := Some (ad_created a)]> ∅))));
     csv.surplus := None |}.

(** The keys of such a dict. *)
Definition row_keys : gset string := list_to_set fieldnames.

(** *** Requests and answers *)

Definition required : list string := ["username"; "email"; "password"; "role"].

(** The value of [data.get(key)]. *)
Definition field_of (data : gmap string json) (key : string) : json :=
  default JNull (data !! key).

(** The payload [data] submits the record [a]: the four required texts,
    and [created] either given as a text or left out. *)
Definition submits (data : gmap string json) (a : admin) : Prop :=
  data !! "username" = Some (JStr (ad_username a)) /\
  data !! "email" = Some (JStr (ad_email a)) /\
  data !! "password" = Some (JStr (ad_password a)) /\
  data !! "role" = Some (JStr (ad_role a)) /\
  default (JStr "") (data !! "created") = JStr (ad_created a).

(** Every value the payload gives for one of the five fields is a text
    that fits the reader's field size limit. *)
Definition textual (data : gmap string json) : Prop :=
  forall k v, k ∈ fieldnames -> data !! k = Some v -> exists s, v = JStr s /\ fits s.

Definition saved_ok : response := JsonDict true (Text "Admin saved successfully") 200.

Definition rejected : response := JsonDict false (Text "All fields are required") 400.

Definition conflict : response :=
  JsonDict false (Text "Admin with this email already exists") 409.

Definition field_too_large : response :=
  JsonDict false (StrOf (CsvError "field larger than field limit (131072)")) 500.

(** The files after an Append that wrote: the line of the five values is
    at the end of the storage file. *)
Definition appended (m : server) (data : gmap string json) (w : world) : gmap string string :=
  <[csv_file_path m :=
      default "" (files w !! csv_file_path m) +:+
      csv.writerow [field_of data "username"; field_of data "email";
                    field_of data "password"; field_of data "role";
                    default (JStr "") (data !! "created")]]> (files w).

(** *** Runs of the service *)

(** One operation of the service, with a text payload when it is an
    Append. *)
Inductive step (m : server) : world -> world -> Prop :=
| step_save (data : gmap string json) (w : world) :
    textual data -> step m w (snd (save_admin m (Object data) w))
| step_load (w : world) : step m w (snd (load_admins m w))
| step_exit (w : world) : step m w (snd (clear_csv_cache m w)).

(** The storage file holds records that the reader accepts and that have
    pairwise distinct emails. *)
Definition unique_emails (m : server) (w : world) : Prop :=
  exists ads, files w !! csv_file_path m = Some (store ads) /\
              Forall admin_fits ads /\ NoDup (map ad_email ads).

(** *** Concrete servers, files and payloads *)

(** The module as imported with no FLASK_ENV, from the directory /app. *)
Definition dev_server : server :=
  {| env := "development"; app_config := DevelopmentConfig; BASE_DIR := "/app";
     DATA_DIR := "/app/src/models/data";
     csv_file_path := "/app/src/models/data/users.csv" |}.

Definition testing_environ : gmap string string := {[ "FLASK_ENV" := "testing" ]}.

(** The module as imported with FLASK_ENV=testing, from the directory
    /app. *)
Definition testing_server : server :=
  {| env := "testing"; app_config := TestingConfig; BASE_DIR := "/app";
     DATA_DIR := "/app/src/models/data";
     csv_file_path := "/app/src/models/data/users.csv" |}.

Definition no_files : world := {| files := ∅; opened := [] |}.

(** The storage file as the module creates it. *)
Definition fresh (m : server) : world :=
  {| files := {[ csv_file_path m := csv.writerow header ]}; opened := [] |}.

Definition alice : gmap string json :=
  <["username" := JStr "alice"]> (<["email" := JStr "a@x.com"]>
  (<["password" := JStr "p"]> (<["role" := JStr "admin"]> ∅))).

Definition alice_admin : admin :=
  {| ad_username := "alice"; ad_email := "a@x.com"; ad_password := "p";
     ad_role := "admin"; ad_created := "" |}.

Definition with_alice (m : server) : world :=
  {| files := {[ csv_file_path m := store [alice_admin] ]}; opened := [] |}.

(** The same email under another username. *)
Definition alice_again : gmap string json :=
  <["username" := JStr "alicia"]> (<["email" := JStr "a@x.com"]>
  (<["password" := JStr "q"]> (<["role" := JStr "admin"]> ∅))).

(** A password with a delimiter and a line break in it, and a [created]
    value. *)
Definition bob : gmap string json :=
  <["username" := JStr "bob"]> (<["email" := JStr "b@x.com"]>
  (<["password" := JStr ("q,1" +:+ CRLF)]> (<["role" := JStr "viewer"]>
  (<["created" := JStr "2024-01-01"]> ∅)))).

Definition bob_admin : admin :=
  {| ad_username := "bob"; ad_email := "b@x.com"; ad_password := "q,1" +:+ CRLF;
     ad_role := "viewer"; ad_created := "2024-01-01" |}.

Definition no_email : gmap string json :=
  <["username" := JStr "alice"]> (<["email" := JStr ""]>
  (<["password" := JStr "p"]> (<["role" := JStr "admin"]> ∅))).

Definition zero_role : gmap string json :=
  <["username" := JStr "alice"]> (<["email" := JStr "a@x.com"]>
  (<["password" := JStr "p"]> (<["role" := JInt 0]> ∅))).

(** The email given as a JSON number. *)
Definition numeric_email : gmap string json :=
  <["username" := JStr "eve"]> (<["email" := JInt 5]>
  (<["password" := JStr "p"]> (<["role" := JStr "admin"]> ∅))).

Definition eve_admin : admin :=
  {| ad_username := "eve"; ad_email := "5"; ad_password := "p";
     ad_role := "admin"; ad_created := "" |}.

(** A text one character longer than the field size limit. *)
Definition long_text : string := N.iter 131073 (String "a"%char) "".

Definition long_name : gmap string json :=
  <["username" := JStr long_text]> (<["email" := JStr "a@x.com"]>
  (<["password" := JStr "p"]> (<["role" := JStr "admin"]> ∅))).

Definition long_password : gmap string json :=
  <["username" := JStr "carol"]> (<["email" := JStr "c@x.com"]>
  (<["password" := JStr long_text]> (<["role" := JStr "admin"]> ∅))).

(** The quotechar as a text. *)
Definition dq : string := String quotechar "".

(** ** server.py, the entry point *)

(** [app_config.PORT]: no configuration class defines it. *)
Definition PORT (p : profile) : option Z := None.

Section main.

(** Python's [int] on a text, which server.py applies to the value of
    PORT. *)
Variable int : string -> result Z.

(** Lines 110-111: the [port] and [debug] arguments of [app.run].  The
    default handed to [os.getenv] is a number, which [int] returns as it
    is. *)
Definition run_arguments (environ : gmap string string) (m : server) : result (Z * bool) :=
  let dflt := default 8080 (PORT (app_config m)) in
  match match environ !! "PORT" with
        | Some s => int s
        | None => Return dflt
        end with
  | Raise e => Raise e
  | Return port => Return (port, DEBUG (app_config m))
  end.

End main.

(** ** Further notions used to state the properties *)

(** The exception of the reader for a field beyond the limit. *)
Definition too_large : exn := CsvError "field larger than field limit (131072)".

(** The iterator that gives the items of a list and then raises. *)
Definition then_fail {A : Type} (l : list A) (e : exn) : iter A := foldr Yield (Fail e) l.

(** The stored emails a submitted value can match: only a text matches,
    and only an equal one. *)
Definition email_match (ads : list admin) (v : json) : bool :=
  match v with
  | JStr e => existsb (fun a => String.eqb (ad_email a) e) ads
  | _ => false
  end.

(** The value of [request.json.get("created", "")]. *)
Definition created_of (data : gmap string json) : json :=
  default (JStr "") (data !! "created").

(** The test of line 66 passes. *)
Definition complete (data : gmap string json) : bool :=
  truthy (field_of data "username") && truthy (field_of data "email") &&
  truthy (field_of data "password") && truthy (field_of data "role").

(** The record a payload ends up as in the file: each value as the text
    the csv writer makes of it. *)
Definition record_of (data : gmap string json) : admin :=
  {| ad_username := cell_text (field_of data "username");
     ad_email := cell_text (field_of data "email");
     ad_password := cell_text (field_of data "password");
     ad_role := cell_text (field_of data "role");
     ad_created := cell_text (created_of data) |}.

(** UTF-8 can encode each of the five values the handler writes. *)
Definition encodes (data : gmap string json) : bool :=
  forallb encodable [field_of data "username"; field_of data "email";
                     field_of data "password"; field_of data "role"; created_of data].

(** The answer when the storage file is missing. *)
Definition not_found (m : server) : response :=
  JsonDict false (StrOf (FileNotFoundError (csv_file_path m))) 500.

(** The answer when the line cannot be encoded. *)
Definition not_encoded : response := JsonDict false (StrOf UnicodeEncodeError) 500.

(** The answer when the keys of a row dict cannot be sorted. *)
Definition not_sorted : response := JsonDict false (StrOf TypeError) 500.

(** What an Append can leave behind: it answered before opening any file,
    or after reading the storage file, or after reading it and opening it
    for appending without writing, or after reading it and adding one line
    at its end. *)
Inductive outcome (m : server) (w : world) : response * world -> Prop :=
| out_early (r : response) :
    status_code r = 400 \/ status_code r = 500 -> outcome m w (r, w)
| out_read (r : response) :
    status_code r = 409 \/ status_code r = 500 ->
    outcome m w (r, log_open (csv_file_path m) mode_r w)
| out_open (r : response) :
    status_code r = 500 ->
    is_Some (files w !! csv_file_path m) ->
    outcome m w
      (r, {| files := files w;
             opened := opened w ++ [(csv_file_path m, mode_r); (csv_file_path m, mode_a)] |})
| out_write (text line : string) :
    files w !! csv_file_path m = Some text ->
    outcome m w
      (saved_ok,
       {| files := <[csv_file_path m := text +:+ line]> (files w);
          opened := opened w ++ [(csv_file_path m, mode_r); (csv_file_path m, mode_a)] |}).

(** The email of the payload, when it passes the truth test, is a text. *)
Definition text_email (data : gmap string json) : Prop :=
  truthy (field_of data "email") = true -> exists e, field_of data "email" = JStr e.

(** One operation of the service: any List, any exit hook, and any Append
    whose body, when it is an object, gives the email as a text. *)
Inductive operation (m : server) : world -> world -> Prop :=
| op_append (request : request_json) (w : world) :
    (forall data, request = Object data -> text_email data) ->
    operation m w (snd (save_admin m request w))
| op_list (w : world) : operation m w (snd (load_admins m w))
| op_exit (w : world) : operation m w (snd (clear_csv_cache m w)).

(** The storage file is a file of records with pairwise distinct
    emails. *)
Definition distinct_emails (m : server) (w : world) : Prop :=
  exists ads, files w !! csv_file_path m = Some (store ads) /\ NoDup (map ad_email ads).

(** *** Further concrete environments, files and payloads *)

(** A production environment that defines the two variables. *)
Definition production_environ : gmap string string :=
  <["FLASK_ENV" := "production"]> (<["SECRET_KEY" := "s3cr3t"]>
  (<["CSV_FILE_PATH" := "/var/data/users.csv"]> ∅)).

(** The module as imported with that environment, from the directory /app. *)
Definition production_server : server :=
  {| env := "production"; app_config := ProductionConfig; BASE_DIR := "/app";
     DATA_DIR := "/app/src/models/data";
     csv_file_path := "/app/src/models/data/users.csv" |}.

(** A storage file of length zero. *)
Definition empty_file (m : server) : world :=
  {| files := {[ csv_file_path m := "" ]}; opened := [] |}.

(** A foreign file: two columns, one short and one long row. *)
Definition foreign : world :=
  {| files := {[ csv_file_path dev_server :=
                   "x,y" +:+ CRLF +:+ "1" +:+ CRLF +:+ "1,2,3" +:+ CRLF ]};
     opened := [] |}.


(** A file of another application: the columns are name and mail. *)
Definition other_header : world :=
  {| files := {[ csv_file_path dev_server :=
                   writerow (map JStr ["name"; "mail"]) +:+
                   writerow (map JStr ["zoe"; "z@x.com"]) +:+ "" ]};
     opened := [] |}.

(** Alice in the storage file, and a file of someone else beside it. *)
Definition with_notes : world :=
  {| files := <["/app/notes.txt" := "keep"]> (files (with_alice dev_server)); opened := [] |}.

(** Values that are not texts, and a null created. *)
Definition mixed : gmap string json :=
  <["username" := JInt 7]> (<["email" := JStr "m@x.com"]>
  (<["password" := JBool true]> (<["role" := JOther true "['a', 'b']"]>
  (<["created" := JNull]> ∅)))).

(** A username with a lone surrogate in it. *)
Definition surrogate_name : gmap string json :=
  <["username" := JSurrogate]> (<["email" := JStr "s@x.com"]>
  (<["password" := JStr "p"]> (<["role" := JStr "admin"]> ∅))).

(** A stored record whose username does not fit. *)
Definition long_admin : admin :=
  {| ad_username := long_text; ad_email := "a@x.com"; ad_password := "p";
     ad_role := "admin"; ad_created := "" |}.

Definition with_long (m : server) : world :=
  {| files := {[ csv_file_path m := store [long_admin] ]}; opened := [] |}.

(** * Proofs *)

(** * The csv model on small inputs *)

(** Quoting: a delimiter or a quote in a field puts it in quotes, a quote
    is doubled; [None] is an empty field; numbers and booleans go through
    [str()]. *)
Example writerow_quoting :
  writerow [JStr "a,b"; JStr ("say " +:+ dq +:+ "hi" +:+ dq); JNull; JInt 5;
            JInt (-12); JBool true; JStr ""] =
  dq +:+ "a,b" +:+ dq +:+ "," +:+
  dq +:+ "say " +:+ dq +:+ dq +:+ "hi" +:+ dq +:+ dq +:+ dq +:+
  ",,5,-12,True," +:+ CRLF.
Proof. reflexivity. Qed.

(** A row made of one empty field is written as an empty quoted field. *)
Example writerow_single_empty : writerow [JStr ""] = dq +:+ dq +:+ CRLF.
Proof. reflexivity. Qed.

(** Each of LF, CR and CR LF ends a record; an empty line is an empty
    record. *)
Example reader_line_ends :
  reader (readlines ("a,b" +:+ String LF "" +:+ String LF "" +:+ "c" +:+ String CR "d"
                     +:+ CRLF +:+ "e")) =
  of_list [["a"; "b"]; []; ["c"]; ["d"]; ["e"]].
Proof. reflexivity. Qed.

(** Text after a closing quote is taken into the field; a quote inside an
    unquoted field is an ordinary character. *)
Example reader_lenient_quotes :
  reader (readlines (dq +:+ "a" +:+ dq +:+ "b,c" +:+ dq +:+ "d")) =
  of_list [["ab"; "c" +:+ dq +:+ "d"]].
Proof. reflexivity. Qed.

(** A quoted field left open at the end of the file is returned as it
    stands. *)
Example reader_open_quote :
  reader (readlines (dq +:+ "open" +:+ CRLF +:+ "more")) =
  of_list [["open" +:+ CRLF +:+ "more"]].
Proof. reflexivity. Qed.

(** [DictReader]: empty rows are skipped, a short row gets [None] cells,
    the surplus of a long row goes under the key [None]. *)
Example DictReader_short_and_long :
  DictReader ("x,y" +:+ CRLF +:+ "1" +:+ CRLF +:+ CRLF +:+ "1,2,3" +:+ CRLF) =
  of_list [ {| named := <["x" := Some "1"]> (<["y" := None]> ∅); surplus := None |};
            {| named := <["x" := Some "1"]> (<["y" := Some "2"]> ∅);
               surplus := Some ["3"] |} ].
Proof. reflexivity. Qed.

(** The file the module creates holds the header line. *)
Example header_written : writerow header = header_line.
Proof. reflexivity. Qed.

(** * Facts about text *)

Lemma append_nil_r (s : string) : s +:+ "" = s.
Proof.
  induction s as [|c s IH]; [reflexivity|].
  change (String c (s +:+ "") = String c s). by rewrite IH.
Qed.

Lemma append_cons (c : ascii) (s t : string) : String c s +:+ t = String c (s +:+ t).
Proof. reflexivity. Qed.

Lemma append_assoc (s t u : string) : (s +:+ t) +:+ u = s +:+ (t +:+ u).
Proof.
  induction s as [|c s IH]; [reflexivity|].
  rewrite !append_cons. by rewrite IH.
Qed.

Lemma is_empty_app_cons (s t : string) (c : ascii) : is_empty (s +:+ String c t) = false.
Proof. by destruct s. Qed.

Lemma string_of_rev_list (s : string) :
  string_of_list_ascii (rev (rev (list_ascii_of_string s))) = s.
Proof. rewrite rev_involutive. apply string_of_list_ascii_of_string. Qed.

(** * Facts about the csv reader *)

Lemma readlines_nonempty (s : string) : is_empty s = false -> readlines s <> [].
Proof.
  destruct s as [|c s]; [done|]. intros _. simpl.
  destruct (ends_line c s); [done|]. by destruct (readlines s).
Qed.

(** The reader, one character at a time. *)
Lemma reader_from_cons (self : Reader) (c : ascii) (rest : string) :
  reader_from self (readlines (String c rest)) =
  match parse_process_char self (Ch c) with
  | Raise e => Fail e
  | Return self' =>
      if ends_line c rest then after_line self' rest
      else reader_from self' (readlines rest)
  end.
Proof.
  simpl. destruct (ends_line c rest) eqn:E.
  - simpl. destruct (parse_process_char self (Ch c)); [|done]. reflexivity.
  - assert (is_empty rest = false) as Hne.
    { unfold ends_line in E. by apply orb_false_iff in E as [_ ?]. }
    apply readlines_nonempty in Hne.
    destruct (readlines rest) as [|l ls]; [done|].
    simpl. by destruct (parse_process_char self (Ch c)).
Qed.

Lemma slen_cons (c : ascii) (s : string) : slen (String c s) = N.succ (slen s).
Proof. unfold slen. simpl. lia. Qed.

Lemma special_false (c : ascii) :
  special c = false ->
  Ascii.eqb c delimiter = false /\ Ascii.eqb c quotechar = false /\
  is_newline c = false.
Proof.
  unfold special, is_newline. intros H.
  apply orb_false_iff in H as [H Hcr]. apply orb_false_iff in H as [H Hlf].
  apply orb_false_iff in H as [Hd Hq]. by rewrite Hd, Hq, Hlf, Hcr.
Qed.

Lemma add_char_ok (fs : list string) (buf : list ascii) (n : N) (st : ParserState) (c : ascii) :
  (n < field_size_limit)%N ->
  parse_add_char (Build_Reader fs buf n st) c =
  Return (Build_Reader fs (c :: buf) (N.succ n) st).
Proof.
  intros Hn. unfold parse_add_char. simpl.
  destruct (N.leb_spec field_size_limit n); [lia|done].
Qed.

Lemma ends_line_plain (c : ascii) (rest : string) :
  is_newline c = false -> is_empty rest = false -> ends_line c rest = false.
Proof.
  unfold is_newline, ends_line. intros H ->.
  apply orb_false_iff in H as [-> ->]. done.
Qed.

Lemma chars_cons (c : ascii) (s : string) (buf : list ascii) :
  chars (String c s) ++ buf = chars s ++ c :: buf.
Proof. unfold chars. simpl. by rewrite <- app_assoc. Qed.

(** Inside an unquoted field: plain characters pile up in the buffer. *)
Lemma in_field_run (s : string) :
  forall (fs : list string) (buf : list ascii) (n : N) (k : string),
  must_quote s = false -> (n + slen s <= field_size_limit)%N -> is_empty k = false ->
  reader_from (Build_Reader fs buf n IN_FIELD) (readlines (s +:+ k)) =
  reader_from (Build_Reader fs (chars s ++ buf) (n + slen s) IN_FIELD) (readlines k).
Proof.
  induction s as [|c s IH]; intros fs buf n k Hq Hn Hk.
  - unfold slen. simpl. by rewrite N.add_0_r.
  - simpl in Hq. apply orb_false_iff in Hq as [Hc Hq].
    apply special_false in Hc as (Hd & Hqc & Hnl).
    rewrite slen_cons in Hn.
    rewrite append_cons, reader_from_cons.
    unfold parse_process_char. simpl. rewrite Hnl, Hd.
    rewrite add_char_ok by lia.
    rewrite ends_line_plain; [|done|].
    2:{ destruct s; [done|done]. }
    rewrite IH by (done || lia).
    rewrite chars_cons, slen_cons. f_equal. f_equal. lia.
Qed.

Local Arguments readlines : simpl never.
Local Arguments reader_from : simpl never.

Lemma after_line_quoted (fs : list string) (buf : list ascii) (n : N) (rest : string) :
  after_line (Build_Reader fs buf n IN_QUOTED_FIELD) rest =
  reader_from (Build_Reader fs buf n IN_QUOTED_FIELD) (readlines rest).
Proof. reflexivity. Qed.

Lemma is_empty_escape_app (s k : string) :
  is_empty (escape s +:+ String quotechar k) = false.
Proof. destruct s as [|c s]; [done|]. simpl. by destruct (Ascii.eqb c quotechar). Qed.

Lemma step_quoted_char (fs : list string) (buf : list ascii) (n : N) (c : ascii) :
  Ascii.eqb c quotechar = false -> (n < field_size_limit)%N ->
  parse_process_char (Build_Reader fs buf n IN_QUOTED_FIELD) (Ch c) =
  Return (Build_Reader fs (c :: buf) (N.succ n) IN_QUOTED_FIELD).
Proof.
  intros Hc Hn. unfold parse_process_char. cbn [state]. rewrite Hc.
  by apply add_char_ok.
Qed.

Lemma step_quoted_quote (fs : list string) (buf : list ascii) (n : N) :
  parse_process_char (Build_Reader fs buf n IN_QUOTED_FIELD) (Ch quotechar) =
  Return (Build_Reader fs buf n QUOTE_IN_QUOTED_FIELD).
Proof. reflexivity. Qed.

Lemma step_doubled_quote (fs : list string) (buf : list ascii) (n : N) :
  (n < field_size_limit)%N ->
  parse_process_char (Build_Reader fs buf n QUOTE_IN_QUOTED_FIELD) (Ch quotechar) =
  Return (Build_Reader fs (quotechar :: buf) (N.succ n) IN_QUOTED_FIELD).
Proof.
  intros Hn. unfold parse_process_char. cbn [state].
  change (Ascii.eqb quotechar quotechar) with true. cbv iota.
  by rewrite add_char_ok.
Qed.

(** Inside a quoted field, up to and including the closing quote: line
    breaks and doubled quotes end up in the buffer as single characters. *)
Lemma in_quoted_run (s : string) :
  forall (fs : list string) (buf : list ascii) (n : N) (k : string),
  (n + slen s <= field_size_limit)%N -> is_empty k = false ->
  reader_from (Build_Reader fs buf n IN_QUOTED_FIELD)
              (readlines (escape s +:+ String quotechar k)) =
  reader_from (Build_Reader fs (chars s ++ buf) (n + slen s) QUOTE_IN_QUOTED_FIELD)
              (readlines k).
Proof.
  induction s as [|c s IH]; intros fs buf n k Hn Hk.
  - change (escape "" +:+ String quotechar k) with (String quotechar k).
    rewrite reader_from_cons, step_quoted_quote.
    rewrite ends_line_plain by done.
    unfold slen. simpl. by rewrite N.add_0_r.
  - rewrite slen_cons in Hn. simpl escape.
    destruct (Ascii.eqb c quotechar) eqn:Hc.
    + apply Ascii.eqb_eq in Hc as ->.
      rewrite !append_cons, reader_from_cons, step_quoted_quote.
      rewrite ends_line_plain by done.
      rewrite reader_from_cons, step_doubled_quote by lia.
      rewrite ends_line_plain by (done || apply is_empty_escape_app).
      rewrite IH by (done || lia).
      rewrite chars_cons, slen_cons. f_equal. f_equal. lia.
    + rewrite append_cons, reader_from_cons, step_quoted_char by (done || lia).
      rewrite after_line_quoted.
      assert (forall X : iter (list string),
                (if ends_line c (escape s +:+ String quotechar k) then X else X) = X) as ->
        by (intros; by destruct (ends_line _ _)).
      rewrite IH by (done || lia).
      rewrite chars_cons, slen_cons. f_equal. f_equal. lia.
Qed.

Lemma escape_plain (s : string) : must_quote s = false -> escape s = s.
Proof.
  induction s as [|c s IH]; [done|]. simpl. intros H.
  apply orb_false_iff in H as [Hc Hs].
  apply special_false in Hc as (_ & -> & _). by rewrite IH.
Qed.

Lemma saved_chars (fs : list string) (s : string) : saved fs (chars s) = fs ++ [s].
Proof. unfold saved, chars. by rewrite string_of_rev_list. Qed.

Lemma step_start_quote (fs : list string) (buf : list ascii) (n : N) (st : ParserState) :
  at_start st ->
  parse_process_char (Build_Reader fs buf n st) (Ch quotechar) =
  Return (Build_Reader fs buf n IN_QUOTED_FIELD).
Proof. by destruct st. Qed.

Lemma step_start_char (fs : list string) (buf : list ascii) (n : N) (st : ParserState) (c : ascii) :
  at_start st -> special c = false -> (n < field_size_limit)%N ->
  parse_process_char (Build_Reader fs buf n st) (Ch c) =
  Return (Build_Reader fs (c :: buf) (N.succ n) IN_FIELD).
Proof.
  intros Hst Hc Hn. apply special_false in Hc as (Hd & Hq & Hnl).
  destruct st; try done; unfold parse_process_char, start_field; cbn [state];
    rewrite ?Hnl; unfold set_state; cbn [state fields field field_len];
    rewrite ?Hnl, Hq, Hd, add_char_ok by done; reflexivity.
Qed.

Lemma step_delimiter (fs : list string) (buf : list ascii) (n : N) (st : ParserState) :
  closes_on_delimiter st ->
  parse_process_char (Build_Reader fs buf n st) (Ch delimiter) =
  Return (Build_Reader (saved fs buf) [] 0 START_FIELD).
Proof. by destruct st. Qed.

Lemma step_CR (fs : list string) (buf : list ascii) (n : N) (st : ParserState) :
  closes_on_newline st ->
  parse_process_char (Build_Reader fs buf n st) (Ch CR) =
  Return (Build_Reader (saved fs buf) [] 0 EAT_CRNL).
Proof. by destruct st. Qed.

(** A delimiter closes the field. *)
Lemma close_delimiter (fs : list string) (buf : list ascii) (n : N) (st : ParserState) (k : string) :
  closes_on_delimiter st -> is_empty k = false ->
  reader_from (Build_Reader fs buf n st) (readlines (String delimiter k)) =
  reader_from (Build_Reader (saved fs buf) [] 0 START_FIELD) (readlines k).
Proof.
  intros Hst Hk. rewrite reader_from_cons, step_delimiter by done.
  by rewrite ends_line_plain.
Qed.

(** The line terminator closes the field and the record. *)
Lemma close_record (fs : list string) (buf : list ascii) (n : N) (st : ParserState) (k : string) :
  closes_on_newline st ->
  reader_from (Build_Reader fs buf n st) (readlines (lineterminator +:+ k)) =
  Yield (saved fs buf) (reader_from parse_reset (readlines k)).
Proof.
  intros Hst. change (lineterminator +:+ k) with (String CR (String LF k)).
  rewrite reader_from_cons, step_CR by done.
  change (ends_line CR (String LF k)) with false. cbv iota.
  rewrite reader_from_cons. reflexivity.
Qed.

(** The text of a field takes the reader from the start of a field to a
    state in which the next delimiter or line end closes it. *)
Lemma field_body (st : ParserState) (fs : list string) (s k : string) :
  at_start st -> fits s -> is_empty k = false ->
  exists st',
    closes_on_delimiter st' /\
    (closes_on_newline st' \/ st' = st) /\
    reader_from (Build_Reader fs [] 0 st) (readlines (encode s +:+ k)) =
    reader_from (Build_Reader fs (chars s) (slen s) st') (readlines k).
Proof.
  intros Hst Hfit Hk. unfold fits in Hfit. unfold encode.
  destruct (must_quote s) eqn:Hq.
  - exists QUOTE_IN_QUOTED_FIELD. split; [done|]. split; [by left|].
    rewrite append_cons, append_assoc, reader_from_cons, step_start_quote by done.
    change (String quotechar "" +:+ k) with (String quotechar k).
    rewrite ends_line_plain by (done || apply is_empty_escape_app).
    rewrite in_quoted_run by (done || lia).
    by rewrite app_nil_r, N.add_0_l.
  - rewrite escape_plain by done. destruct s as [|c s].
    + exists st. split; [by destruct st|]. split; [by right|done].
    + exists IN_FIELD. split; [done|]. split; [by left|].
      simpl in Hq. apply orb_false_iff in Hq as [Hc Hq].
      rewrite slen_cons in Hfit.
      rewrite append_cons, reader_from_cons, step_start_char by (done || lia).
      rewrite ends_line_plain.
      2:{ by apply special_false in Hc as (_ & _ & ?). }
      2:{ by destruct s. }
      rewrite in_field_run by (done || lia).
      unfold chars at 2. simpl. rewrite slen_cons.
      f_equal. f_equal. lia.
Qed.

Lemma field_then_delimiter (st : ParserState) (fs : list string) (s k : string) :
  at_start st -> fits s -> is_empty k = false ->
  reader_from (Build_Reader fs [] 0 st) (readlines (encode s +:+ String delimiter k)) =
  reader_from (Build_Reader (fs ++ [s]) [] 0 START_FIELD) (readlines k).
Proof.
  intros Hst Hfit Hk.
  destruct (field_body st fs s (String delimiter k)) as (st' & Hd & _ & ->); try done.
  by rewrite close_delimiter, saved_chars.
Qed.

Lemma field_then_newline (fs : list string) (s k : string) :
  fits s ->
  reader_from (Build_Reader fs [] 0 START_FIELD) (readlines (encode s +:+ lineterminator +:+ k)) =
  Yield (fs ++ [s]) (reader_from parse_reset (readlines k)).
Proof.
  intros Hfit.
  destruct (field_body START_FIELD fs s (lineterminator +:+ k)) as (st' & _ & Hn & ->);
    try done.
  assert (closes_on_newline st') as Hst' by (by destruct Hn as [?| ->]).
  by rewrite close_record, saved_chars.
Qed.

(** * Facts about the csv writer *)

Lemma append_field_text (self : Writer) (v : json) :
  append_field self v = join_append self (Some (cell_text v)) false.
Proof. by destruct v. Qed.

Lemma tail_text_cons (ss : list string) : exists c t, tail_text ss = String c t.
Proof. destruct ss; simpl; eauto. Qed.

Lemma join_append_next (r s : string) (n : nat) :
  join_append {| rec := r; num_fields := S n |} (Some s) false =
  {| rec := r +:+ String delimiter "" +:+ encode s; num_fields := S (S n) |}.
Proof. reflexivity. Qed.

Lemma join_append_first (s : string) :
  join_append {| rec := ""; num_fields := 0 |} (Some s) false =
  {| rec := encode s; num_fields := 1 |}.
Proof. reflexivity. Qed.

Lemma fold_append_fields (vs : list json) :
  forall (r : string) (n : nat),
  let w := fold_left append_field vs {| rec := r; num_fields := S n |} in
  rec w +:+ lineterminator = r +:+ tail_text (map cell_text vs) /\
  (is_empty r = false -> is_empty (rec w) = false) /\
  num_fields w = (S n + length vs)%nat.
Proof.
  induction vs as [|v vs IH]; intros r n; simpl.
  - done.
  - rewrite append_field_text, join_append_next.
    destruct (IH (r +:+ String delimiter "" +:+ encode (cell_text v)) (S n))
      as (E1 & E2 & E3).
    split; [|split].
    + rewrite E1. by rewrite !append_assoc.
    + intros _. apply E2. destruct r; [done|done].
    + rewrite E3. lia.
Qed.

(** A row of two or more values is written as the fields, delimiters
    between them, and the line terminator. *)
Lemma writerow_text (v1 v2 : json) (vs : list json) :
  writerow (v1 :: v2 :: vs) = row_text (cell_text v1) (map cell_text (v2 :: vs)).
Proof.
  unfold writerow.
  change (fold_left append_field (v1 :: v2 :: vs) {| rec := ""; num_fields := 0 |})
    with (fold_left append_field vs
            (append_field (append_field {| rec := ""; num_fields := 0 |} v1) v2)).
  rewrite !append_field_text, join_append_first, join_append_next.
  destruct (fold_append_fields vs
              (encode (cell_text v1) +:+ String delimiter "" +:+ encode (cell_text v2)) 1)
    as (E1 & E2 & E3).
  cbv zeta in E1, E2, E3.
  rewrite E3, E2 by apply is_empty_app_cons.
  simpl. rewrite E1. unfold row_text. simpl. by rewrite !append_assoc.
Qed.

(** * Writing a line and reading it back *)

Lemma row_tail_read (ss : list string) :
  forall (fs : list string) (s k : string),
  fits s -> Forall fits ss ->
  reader_from (Build_Reader fs [] 0 START_FIELD)
              (readlines (encode s +:+ tail_text ss +:+ k)) =
  Yield (fs ++ s :: ss) (reader_from parse_reset (readlines k)).
Proof.
  induction ss as [|s' ss IH]; intros fs s k Hs Hss.
  - simpl tail_text. by apply field_then_newline.
  - inversion Hss; subst. simpl tail_text.
    rewrite append_cons, field_then_delimiter; [|done|done|].
    + rewrite append_assoc, IH by done. by rewrite <- app_assoc.
    + rewrite append_assoc. destruct (tail_text_cons ss) as (c & t & ->).
      rewrite append_cons. apply is_empty_app_cons.
Qed.

Lemma row_text_read (s : string) (ss : list string) (k : string) :
  ss <> [] -> fits s -> Forall fits ss ->
  reader_from parse_reset (readlines (row_text s ss +:+ k)) =
  Yield (s :: ss) (reader_from parse_reset (readlines k)).
Proof.
  intros Hne Hs Hss. destruct ss as [|s' ss]; [done|]. inversion Hss; subst.
  unfold row_text. simpl tail_text. rewrite append_assoc, append_cons.
  unfold parse_reset. rewrite field_then_delimiter; [|done|done|].
  - rewrite append_assoc. by rewrite row_tail_read.
  - rewrite append_assoc. destruct (tail_text_cons ss) as (c & t & ->).
    rewrite append_cons. apply is_empty_app_cons.
Qed.

(** * The storage file *)

Lemma fits_short (s : string) : (String.length s <= 100)%nat -> fits s.
Proof. unfold fits, slen, field_size_limit. lia. Qed.

Lemma make_row_admin (a : admin) : make_row fieldnames (admin_fields a) = admin_row a.
Proof. reflexivity. Qed.

Lemma header_text : csv.writerow header = row_text "username" ["email"; "password"; "role"; "created"].
Proof. reflexivity. Qed.

Lemma admin_line_text (a : admin) :
  admin_line a = row_text (ad_username a) [ad_email a; ad_password a; ad_role a; ad_created a].
Proof. unfold admin_line, admin_fields. simpl map. by rewrite writerow_text. Qed.

Lemma reader_records (ads : list admin) :
  Forall admin_fits ads ->
  reader_from parse_reset (readlines (foldr (fun a acc => admin_line a +:+ acc) "" ads)) =
  of_list (map admin_fields ads).
Proof.
  induction ads as [|a ads IH]; intros Hfit; [reflexivity|].
  inversion Hfit as [|? ? Ha Hads]; subst. simpl foldr.
  unfold admin_fits, admin_fields in Ha. inversion Ha; subst.
  rewrite admin_line_text, row_text_read, IH by done. reflexivity.
Qed.

Lemma dict_rows_admins (ads : list admin) :
  dict_rows fieldnames (of_list (map admin_fields ads)) = of_list (map admin_row ads).
Proof.
  induction ads as [|a ads IH]; [reflexivity|].
  change (dict_rows fieldnames (of_list (map admin_fields (a :: ads)))) with
    (Yield (make_row fieldnames (admin_fields a))
           (dict_rows fieldnames (of_list (map admin_fields ads)))).
  by rewrite IH, make_row_admin.
Qed.

(** Reading a storage file gives back its records, in order. *)
Lemma DictReader_store (ads : list admin) :
  Forall admin_fits ads -> DictReader (store ads) = of_list (map admin_row ads).
Proof.
  intros Hfit. unfold DictReader, reader, store.
  rewrite header_text, row_text_read; [|done|by apply fits_short; simpl; lia|].
  - rewrite reader_records by done. apply dict_rows_admins.
  - repeat constructor; apply fits_short; simpl; lia.
Qed.

Lemma collect_of_list {A : Type} (l : list A) : collect (of_list l) = Return l.
Proof.
  induction l as [|a l IH]; [done|].
  change (collect (of_list (a :: l))) with
    (match collect (of_list l) with
     | Return l' => Return (a :: l')
     | Raise e => Raise e
     end).
  by rewrite IH.
Qed.

Lemma email_exists_admins (ads : list admin) (e : string) :
  email_exists (of_list (map admin_row ads)) (JStr e) =
  Return (existsb (fun a => String.eqb (ad_email a) e) ads).
Proof.
  induction ads as [|a ads IH]; [done|].
  change (email_exists (of_list (map admin_row (a :: ads))) (JStr e)) with
    (if String.eqb (ad_email a) e then Return true
     else email_exists (of_list (map admin_row ads)) (JStr e)).
  rewrite IH. simpl. by destruct (String.eqb (ad_email a) e).
Qed.

Lemma existsb_email_fresh (ads : list admin) (e : string) :
  e ∉ map ad_email ads -> existsb (fun a => String.eqb (ad_email a) e) ads = false.
Proof.
  induction ads as [|a ads IH]; [done|]. simpl. intros Hn.
  apply not_elem_of_cons in Hn as [Hne Hn].
  rewrite IH by done. destruct (String.eqb_spec (ad_email a) e); [by subst|done].
Qed.

Lemma store_snoc (ads : list admin) (a : admin) :
  store (ads ++ [a]) = store ads +:+ admin_line a.
Proof.
  unfold store. rewrite append_assoc. f_equal.
  induction ads as [|b ads IH]; simpl.
  - by rewrite append_nil_r.
  - by rewrite IH, append_assoc.
Qed.

(** * The handlers on a storage file *)

(** Unfolds a handler down to the primitive operations on the world. *)
Ltac handler :=
  unfold save_admin, load_admins, try_except, bind, lift, get, ret.

(** Membership in one of the literal lists of field names. *)
Ltac member := unfold required, fieldnames; repeat constructor.

Lemma is_empty_false (s : string) : s <> "" -> is_empty s = false.
Proof. by destruct s. Qed.

Lemma save_admin_fresh (m : server) (w : world) (ads : list admin)
    (data : gmap string json) (a : admin) :
  files w !! csv_file_path m = Some (store ads) ->
  Forall admin_fits ads ->
  submits data a -> valid a ->
  ad_email a ∉ map ad_email ads ->
  save_admin m (Object data) w =
  (saved_ok,
   {| files := <[csv_file_path m := store (ads ++ [a])]> (files w);
      opened := opened w ++ [(csv_file_path m, mode_r); (csv_file_path m, mode_a)] |}).
Proof.
  intros Hfile Hfit (Hu & He & Hp & Hr & Hc) (Vu & Ve & Vp & Vr) Hfresh.
  handler.
  rewrite Hu, He, Hp, Hr. simpl.
  rewrite !is_empty_false by done. simpl.
  unfold open_r. rewrite Hfile.
  rewrite DictReader_store, email_exists_admins, existsb_email_fresh by done.
  rewrite Hc. unfold open_a, file_write, log_open. simpl.
  rewrite Hfile. simpl.
  rewrite lookup_insert_eq, insert_insert_eq. simpl.
  rewrite store_snoc. unfold saved_ok. rewrite <- app_assoc. reflexivity.
Qed.

(** The row dicts of stored records hold text keys only. *)
Lemma jsonify_admin_rows (ads : list admin) :
  jsonify (map admin_row ads) = Return (JsonList (map admin_row ads) 200).
Proof.
  unfold jsonify.
  replace (forallb sortable (map admin_row ads)) with true; [done|].
  induction ads as [|a ads IH]; [done|]. simpl. by rewrite <- IH.
Qed.

Lemma load_admins_store (m : server) (w : world) (ads : list admin) :
  files w !! csv_file_path m = Some (store ads) ->
  Forall admin_fits ads ->
  load_admins m w = (JsonList (map admin_row ads) 200, log_open (csv_file_path m) mode_r w).
Proof.
  intros Hfile Hfit. handler; unfold open_r.
  rewrite Hfile. by rewrite DictReader_store, collect_of_list, jsonify_admin_rows.
Qed.

(** * The duplicate check on any file *)

Lemma fold_insert_Some_is_Some (kvs : list (string * string)) :
  forall (d : gmap string (option string)) (k : string),
  is_Some (fold_left (fun d kv => <[kv.1 := Some kv.2]> d) kvs d !! k) <->
  k ∈ kvs.*1 \/ is_Some (d !! k).
Proof.
  induction kvs as [|[k' v] kvs IH]; intros d k; simpl.
  - rewrite elem_of_nil. tauto.
  - rewrite IH, elem_of_cons, lookup_insert. case_decide; subst.
    + split; [intros _|]; eauto.
    + split; intros [?|?]; eauto. destruct H0; [congruence|eauto].
Qed.

Lemma fold_insert_None_is_Some (ks : list string) :
  forall (d : gmap string (option string)) (k : string),
  is_Some (fold_left (fun d k => <[k := None]> d) ks d !! k) <->
  k ∈ ks \/ is_Some (d !! k).
Proof.
  induction ks as [|k' ks IH]; intros d k; simpl.
  - rewrite elem_of_nil. tauto.
  - rewrite IH, elem_of_cons, lookup_insert. case_decide; subst.
    + split; [intros _|]; eauto.
    + split; intros [?|?]; eauto. destruct H0; [congruence|eauto].
Qed.

Lemma fst_zip_take {A B : Type} (l : list A) :
  forall k : list B, (zip l k).*1 = take (length k) l.
Proof.
  induction l as [|a l IH]; intros [|b k]; simpl; try done.
  by rewrite IH.
Qed.

(** Every row of a [DictReader] has a cell under every field name, and
    under no other name. *)
Lemma make_row_is_Some (fns values : list string) (k : string) :
  is_Some (named (make_row fns values) !! k) <-> k ∈ fns.
Proof.
  unfold make_row.
  destruct (Nat.ltb_spec (length fns) (length values)) as [H1|H1]; simpl.
  - rewrite fold_insert_Some_is_Some, fst_zip by lia.
    rewrite lookup_empty, is_Some_alt. tauto.
  - destruct (Nat.ltb_spec (length values) (length fns)) as [H2|H2]; simpl.
    + rewrite fold_insert_None_is_Some, fold_insert_Some_is_Some.
      rewrite lookup_empty, is_Some_alt.
      rewrite <- (take_drop (length values) fns) at 3.
      rewrite elem_of_app.
      rewrite fst_zip_take. tauto.
    + rewrite fold_insert_Some_is_Some, fst_zip by lia.
      rewrite lookup_empty, is_Some_alt. tauto.
Qed.

Lemma yields_dict_rows (fns : list string) (it : iter (list string)) (r : row) :
  yields (dict_rows fns it) r -> exists values, r = make_row fns values.
Proof.
  induction it as [| |values rest IH]; simpl; intros Hy.
  - inversion Hy.
  - inversion Hy.
  - destruct values as [|v values]; [by apply IH|].
    inversion Hy; subst; eauto.
Qed.

Lemma yields_DictReader (text : string) (r : row) :
  yields (DictReader text) r ->
  exists fns, forall r', yields (DictReader text) r' ->
                         exists values, r' = make_row fns values.
Proof.
  unfold DictReader. destruct (reader (readlines text)) as [| |fns rest].
  - inversion 1.
  - inversion 1.
  - intros _. exists fns. intros r'. apply yields_dict_rows.
Qed.

Lemma email_exists_yields (it : iter row) (r : row) (e : string) :
  yields it r ->
  named r !! "email" = Some (Some e) ->
  (forall r', yields it r' -> is_Some (named r' !! "email")) ->
  email_exists it (JStr e) = Return true.
Proof.
  induction 1 as [a rest|a b rest Hy IH]; intros He Hall; simpl.
  - unfold getitem. rewrite He. simpl. by rewrite String.eqb_refl.
  - destruct (Hall b (yields_here _ _)) as [cell Hcell].
    unfold getitem. rewrite Hcell.
    destruct (cell_eq cell (JStr e)); [done|].
    apply IH; [done|]. intros r' Hr'. apply Hall. by apply yields_later.
Qed.

(** The scan finds an email that some row of the file carries. *)
Lemma email_exists_in_file (text : string) (r : row) (e : string) :
  yields (DictReader text) r ->
  named r !! "email" = Some (Some e) ->
  email_exists (DictReader text) (JStr e) = Return true.
Proof.
  intros Hy He. eapply email_exists_yields; [done..|].
  destruct (yields_DictReader text r Hy) as (fns & Hfns).
  destruct (Hfns r Hy) as (values & ->).
  assert ("email" ∈ fns) as Hin by (apply (make_row_is_Some fns values); by rewrite He).
  intros r' Hr'. destruct (Hfns r' Hr') as (values' & ->).
  by apply make_row_is_Some.
Qed.

(** * Configuration selection *)

Lemma config_lookup_other (e : string) :
  e <> "development" -> e <> "testing" -> e <> "production" -> e <> "default" ->
  config !! e = None.
Proof.
  intros. unfold config.
  by rewrite !lookup_insert_ne, lookup_empty.
Qed.

(** C1, as the code has it: an absent indicator and the names
    [development] and [default] select the development profile, [testing]
    and [production] their own profiles, and any other name makes the
    lookup raise [KeyError]. *)
Theorem config_selection (environ : gmap string string) (base_dir : string) :
  selected environ base_dir =
  match environ !! "FLASK_ENV" with
  | None => Return DevelopmentConfig
  | Some e =>
      if decide (e = "development" \/ e = "default") then Return DevelopmentConfig
      else if decide (e = "testing") then Return TestingConfig
      else if decide (e = "production") then Return ProductionConfig
      else Raise (KeyError e)
  end.
Proof.
  unfold selected, globals, os_getenv.
  destruct (environ !! "FLASK_ENV") as [e|]; [|reflexivity]. simpl.
  destruct (decide (e = "development" \/ e = "default")) as [[-> | ->]|Hn];
    [reflexivity..|].
  destruct (decide (e = "testing")) as [->|Ht]; [reflexivity|].
  destruct (decide (e = "production")) as [->|Hp]; [reflexivity|].
  unfold getitem. rewrite config_lookup_other; [done|..]; naive_solver.
Qed.

(** C1 as stated fails: with the indicator set to [staging] no profile is
    selected, the lookup raises [KeyError]. *)
Lemma config_selection_unrecognized :
  selected (<["FLASK_ENV" := "staging"]> ∅) "/app" = Raise (KeyError "staging") /\
  selected (<["FLASK_ENV" := "staging"]> ∅) "/app" <> Return DevelopmentConfig.
Proof. split; [reflexivity|discriminate]. Qed.

(** * Rejected requests *)

(** The validation of line 66 fails as soon as one required value is
    falsy, and then the handler returns before touching the world. *)
Lemma save_admin_invalid (m : server) (data : gmap string json) (w : world) (k : string) :
  k ∈ required -> truthy (field_of data k) = false ->
  save_admin m (Object data) w = (rejected, w).
Proof.
  intros Hk Hf. handler. simpl.
  unfold required in Hk. unfold field_of in Hf.
  repeat (apply elem_of_cons in Hk as [->|Hk]; [rewrite Hf; simpl;
    rewrite ?orb_true_r; reflexivity|]).
  by apply elem_of_nil in Hk.
Qed.

(** A body that is not an object has no [get]: the attribute error is
    caught and answered with status 500, the world is as before. *)
Lemma save_admin_not_object (m : server) (w : world) :
  save_admin m NotObject w = (JsonDict false (StrOf AttributeError) 500, w).
Proof. reflexivity. Qed.

(** C7: an Append in which one of username, email, password, role is
    absent or the empty text is answered with status 400 (a 4xx status)
    and a message, and the files are as before. *)
Theorem append_missing_field_rejected (m : server) (data : gmap string json)
    (w : world) (k : string) :
  k ∈ required ->
  data !! k = None \/ data !! k = Some (JStr "") ->
  exists msg,
    fst (save_admin m (Object data) w) = JsonDict false (Text msg) 400 /\
    400 <= status_code (fst (save_admin m (Object data) w)) < 500 /\
    msg <> "" /\
    files (snd (save_admin m (Object data) w)) = files w.
Proof.
  intros Hk Hd. exists "All fields are required".
  rewrite (save_admin_invalid m data w k Hk).
  - simpl. repeat split; (done || lia).
  - unfold field_of. by destruct Hd as [-> | ->].
Qed.

Lemma append_missing_field_rejected_witness :
  "email" ∈ required /\
  exists msg,
    fst (save_admin dev_server (Object no_email) no_files) = JsonDict false (Text msg) 400 /\
    400 <= status_code (fst (save_admin dev_server (Object no_email) no_files)) < 500 /\
    msg <> "" /\
    files (snd (save_admin dev_server (Object no_email) no_files)) = files no_files.
Proof.
  assert ("email" ∈ required) as Hk by member.
  split; [exact Hk|].
  apply (append_missing_field_rejected dev_server no_email no_files "email" Hk).
  right. reflexivity.
Defined.

(** C10: when one of the four required values is falsy (absent, null,
    empty text, zero, false, ...), the 400 answer is produced without the
    storage file, or any file, being opened: nothing is read and nothing is
    written, whatever the files are. *)
Theorem append_invalid_no_file_access (m : server) (data : gmap string json)
    (w : world) (k : string) :
  k ∈ required ->
  truthy (field_of data k) = false ->
  fst (save_admin m (Object data) w) = rejected /\
  opened (snd (save_admin m (Object data) w)) = opened w /\
  files (snd (save_admin m (Object data) w)) = files w.
Proof.
  intros Hk Hf. by rewrite (save_admin_invalid m data w k Hk Hf).
Qed.

Lemma append_invalid_no_file_access_witness :
  "role" ∈ required /\
  truthy (field_of zero_role "role") = false /\
  fst (save_admin dev_server (Object zero_role) no_files) = rejected /\
  opened (snd (save_admin dev_server (Object zero_role) no_files)) = opened no_files /\
  files (snd (save_admin dev_server (Object zero_role) no_files)) = files no_files.
Proof.
  assert ("role" ∈ required) as Hk by member.
  assert (truthy (field_of zero_role "role") = false) as Hf by reflexivity.
  split; [exact Hk|]. split; [exact Hf|].
  exact (append_invalid_no_file_access dev_server zero_role no_files "role" Hk Hf).
Defined.

(** * The exit hook *)

Lemma clear_csv_cache_file (m : server) (w : world) :
  clear_csv_cache m w =
  (Return tt, {| files := <[csv_file_path m := header_line]> (files w);
                 opened := opened w ++ [(csv_file_path m, mode_w)] |}).
Proof.
  unfold clear_csv_cache, bind, open_w, file_write. simpl.
  by rewrite insert_insert_eq, lookup_insert_eq.
Qed.

(** C8: whatever the files hold when the process ends, after
    [clear_csv_cache] the storage file is exactly the header line, and a
    List on it returns no record. *)
Theorem clear_csv_cache_resets (m : server) (w : world) :
  fst (clear_csv_cache m w) = Return tt /\
  files (snd (clear_csv_cache m w)) !! csv_file_path m = Some header_line /\
  fst (load_admins m (snd (clear_csv_cache m w))) = JsonList [] 200.
Proof.
  rewrite clear_csv_cache_file. simpl.
  split; [done|]. split; [by rewrite lookup_insert_eq|].
  handler; unfold open_r. simpl.
  by rewrite lookup_insert_eq.
Qed.

(** * Keys of the payload beyond the five fields *)

Lemma save_admin_files (m : server) (data : gmap string json) (w : world) :
  files (snd (save_admin m (Object data) w)) = files w \/
  files (snd (save_admin m (Object data) w)) = appended m data w.
Proof.
  handler. simpl.
  destruct (orb _ _); [by left|].
  unfold open_r. destruct (files w !! csv_file_path m) as [text|] eqn:Hf; [|by left].
  destruct (email_exists _ _) as [[]|]; [by left| |by left].
  unfold writer_writerow. destruct (forallb encodable _); simpl.
  - right. unfold appended, field_of. rewrite Hf. simpl.
    by rewrite lookup_insert_eq, insert_insert_eq.
  - left. rewrite Hf. simpl. by apply insert_id.
Qed.

(** C9: a key of the payload other than the five field names changes neither
    the answer nor the files, so it reaches neither the stored line nor any
    later List; and what an Append adds to the storage file, if it adds
    anything, is the one line made of the five values. *)
Theorem extra_keys_discarded (m : server) (data : gmap string json) (w : world)
    (k : string) (v : json) :
  k ∉ fieldnames ->
  save_admin m (Object (<[k := v]> data)) w = save_admin m (Object data) w /\
  (files (snd (save_admin m (Object (<[k := v]> data)) w)) = files w \/
   files (snd (save_admin m (Object (<[k := v]> data)) w)) = appended m data w).
Proof.
  intros Hk.
  assert (save_admin m (Object (<[k := v]> data)) w = save_admin m (Object data) w) as E.
  { unfold fieldnames in Hk. unfold save_admin, get.
    rewrite !lookup_insert_ne; [done|intros ->; apply Hk; repeat constructor..]. }
  split; [exact E|]. rewrite E. apply save_admin_files.
Qed.

Lemma extra_keys_discarded_witness :
  ("is_superuser" ∉ fieldnames) /\
  save_admin dev_server (Object (<["is_superuser" := JBool true]> alice)) (fresh dev_server) =
  save_admin dev_server (Object alice) (fresh dev_server) /\
  (files (snd (save_admin dev_server (Object (<["is_superuser" := JBool true]> alice))
                          (fresh dev_server))) = files (fresh dev_server) \/
   files (snd (save_admin dev_server (Object (<["is_superuser" := JBool true]> alice))
                          (fresh dev_server))) = appended dev_server alice (fresh dev_server)).
Proof.
  assert ("is_superuser" ∉ fieldnames) as Hk by (unfold fieldnames; intros H; repeat (apply elem_of_cons in H as [H|H]; [discriminate H|]); by apply elem_of_nil in H).
  split; [exact Hk|].
  exact (extra_keys_discarded dev_server alice (fresh dev_server) "is_superuser"
           (JBool true) Hk).
Defined.

(** * Appending *)

(** C4, as the code has it: when the email of a candidate record (whose
    required values pass the validation) is a text, and some record that
    [DictReader] yields from the storage file carries that text as its
    email, Append answers 409 (a 4xx status) with a message, and the files
    are as before: the file was opened for reading only. *)
Theorem append_duplicate_conflict (m : server) (w : world) (text : string)
    (data : gmap string json) (r : row) (e : string) :
  files w !! csv_file_path m = Some text ->
  yields (DictReader text) r ->
  named r !! "email" = Some (Some e) ->
  data !! "email" = Some (JStr e) ->
  (forall k, k ∈ required -> truthy (field_of data k) = true) ->
  save_admin m (Object data) w = (conflict, log_open (csv_file_path m) mode_r w) /\
  400 <= status_code (fst (save_admin m (Object data) w)) < 500 /\
  files (snd (save_admin m (Object data) w)) = files w /\
  files (snd (save_admin m (Object data) w)) !! csv_file_path m = Some text.
Proof.
  intros Hfile Hy Hr He Hreq.
  assert (save_admin m (Object data) w = (conflict, log_open (csv_file_path m) mode_r w)) as E.
  { handler. simpl.
    fold (field_of data "username"). fold (field_of data "email").
    fold (field_of data "password"). fold (field_of data "role").
    rewrite !Hreq by member. simpl.
    unfold open_r. rewrite Hfile.
    unfold field_of. rewrite He. simpl.
    by rewrite (email_exists_in_file text r e Hy Hr). }
  rewrite E. simpl. repeat split; (done || lia).
Qed.

Lemma append_duplicate_conflict_witness :
  save_admin dev_server (Object alice_again) (with_alice dev_server) =
    (conflict, log_open (csv_file_path dev_server) mode_r (with_alice dev_server)) /\
  400 <= status_code (fst (save_admin dev_server (Object alice_again) (with_alice dev_server))) < 500 /\
  files (snd (save_admin dev_server (Object alice_again) (with_alice dev_server))) =
    files (with_alice dev_server) /\
  files (snd (save_admin dev_server (Object alice_again) (with_alice dev_server)))
    !! csv_file_path dev_server = Some (store [alice_admin]).
Proof.
  apply (append_duplicate_conflict dev_server (with_alice dev_server) (store [alice_admin])
           alice_again (admin_row alice_admin) "a@x.com").
  - reflexivity.
  - vm_compute. apply yields_here.
  - reflexivity.
  - reflexivity.
  - intros k Hk. unfold required in Hk.
    repeat (apply elem_of_cons in Hk as [->|Hk]; [reflexivity|]).
    by apply elem_of_nil in Hk.
Defined.

(** C4 as stated fails: the service stores a record whose username has
    131073 characters; a candidate with the email of that record is then
    answered 500, not 409, because the reader refuses the stored line
    before the emails are compared. *)
Lemma append_duplicate_after_long_field :
  long_name !! "email" = Some (JStr "a@x.com") /\
  alice !! "email" = Some (JStr "a@x.com") /\
  fst (save_all dev_server [Object long_name; Object alice] (fresh dev_server)) =
    [saved_ok; field_too_large] /\
  status_code field_too_large = 500.
Proof. vm_compute. repeat split. Qed.

(** C3, with the bounds the csv reader and the file encoding impose: on a
    storage file written by the service (header line, then the lines of
    records whose texts all fit the reader's field size limit), a candidate
    record with non-empty username, email, password and role, texts that
    UTF-8 can encode and that fit the limit, and an email no stored record
    has, is appended with a success answer, and the List that follows
    returns the stored records followed by a record whose five fields are
    the submitted texts, [created] being the empty text when it was left
    out. *)
Theorem append_then_list (m : server) (w : world) (ads : list admin)
    (data : gmap string json) (a : admin) :
  files w !! csv_file_path m = Some (store ads) ->
  Forall admin_fits ads ->
  submits data a -> valid a -> admin_fits a ->
  ad_email a ∉ map ad_email ads ->
  fst (save_admin m (Object data) w) = saved_ok /\
  fst (load_admins m (snd (save_admin m (Object data) w))) =
    JsonList (map admin_row ads ++ [admin_row a]) 200.
Proof.
  intros Hfile Hfit Hsub Hval Ha Hfresh.
  rewrite (save_admin_fresh m w ads data a) by done.
  split; [done|].
  rewrite (load_admins_store m _ (ads ++ [a])).
  - simpl. by rewrite map_app.
  - simpl. by rewrite lookup_insert_eq.
  - apply Forall_app. split; [done|]. by constructor.
Qed.

(** The scenario of the specification: alice is appended to a fresh file. *)
Lemma append_then_list_witness :
  fst (save_admin dev_server (Object alice) (fresh dev_server)) = saved_ok /\
  fst (load_admins dev_server (snd (save_admin dev_server (Object alice) (fresh dev_server)))) =
    JsonList (map admin_row [] ++ [admin_row alice_admin]) 200.
Proof.
  apply (append_then_list dev_server (fresh dev_server) [] alice alice_admin).
  - reflexivity.
  - constructor.
  - repeat split; reflexivity.
  - repeat split; discriminate.
  - repeat constructor; apply fits_short; simpl; lia.
  - apply not_elem_of_nil.
Defined.

(** C3 as stated fails: a record whose username has 131073 characters is
    appended with a success answer, and the List that follows returns no
    records but a server error, because the reader refuses the field; and
    a record whose username holds a lone surrogate is not appended, the
    answer is a server error and the List that follows returns no record. *)
Lemma append_then_list_long_field :
  truthy (JStr long_text) = true /\
  fst (save_admin dev_server (Object long_name) (fresh dev_server)) = saved_ok /\
  fst (load_admins dev_server (snd (save_admin dev_server (Object long_name) (fresh dev_server)))) =
    field_too_large /\
  truthy JSurrogate = true /\
  fst (save_admin dev_server (Object surrogate_name) (fresh dev_server)) = not_encoded /\
  fst (load_admins dev_server
         (snd (save_admin dev_server (Object surrogate_name) (fresh dev_server)))) =
    JsonList [] 200.
Proof. vm_compute. repeat split. Qed.

Lemma save_all_store (m : server) (subs : list admin) :
  forall (datas : list (gmap string json)) (ads : list admin) (w : world),
  files w !! csv_file_path m = Some (store ads) ->
  Forall2 submits datas subs -> Forall valid subs ->
  Forall admin_fits (ads ++ subs) ->
  NoDup (map ad_email (ads ++ subs)) ->
  fst (save_all m (map Object datas) w) = map (fun _ => saved_ok) subs /\
  files (snd (save_all m (map Object datas) w)) !! csv_file_path m =
    Some (store (ads ++ subs)).
Proof.
  induction subs as [|a subs IH]; intros datas ads w Hfile Hsub Hval Hfit Hnd.
  - inversion Hsub; subst. simpl. by rewrite app_nil_r.
  - inversion Hsub as [|data ? datas' ? Hd Hds]; subst.
    inversion Hval as [|? ? Va Vs]; subst.
    simpl map. simpl save_all.
    rewrite (save_admin_fresh m w ads data a); try done.
    + specialize (IH datas' (ads ++ [a])
        {| files := <[csv_file_path m := store (ads ++ [a])]> (files w);
           opened := opened w ++ [(csv_file_path m, mode_r); (csv_file_path m, mode_a)] |}).
      rewrite <- !app_assoc in IH. simpl in IH.
      destruct IH as [E1 E2]; try done.
      * by rewrite lookup_insert_eq.
      * destruct (save_all m (map Object datas') _) as [rs w2].
        simpl in *. by rewrite E1.
    + apply Forall_app in Hfit as [? _]. done.
    + rewrite map_app in Hnd. simpl in Hnd.
      apply NoDup_app in Hnd as (_ & Hdisj & _).
      intros Hin. apply (Hdisj _ Hin). by left.
Qed.

Lemma admin_row_keys (a : admin) :
  dom (named (admin_row a)) = row_keys /\ surplus (admin_row a) = None.
Proof.
  split; [|done]. unfold admin_row, row_keys, fieldnames. simpl.
  rewrite !dom_insert_L, dom_empty_L. set_solver.
Qed.

(** C6, with the bounds the csv reader and the file encoding impose:
    starting from the header-only file, a sequence of submissions with
    non-empty required texts, texts that UTF-8 can encode and that fit the
    reader's field size limit, and pairwise distinct emails is appended
    with a success answer each, and the List
    that follows returns exactly the submitted records, in submission
    order, each with exactly the keys username, email, password, role,
    created. *)
Theorem appends_then_list (m : server) (w : world)
    (datas : list (gmap string json)) (subs : list admin) :
  files w !! csv_file_path m = Some header_line ->
  Forall2 submits datas subs -> Forall valid subs -> Forall admin_fits subs ->
  NoDup (map ad_email subs) ->
  fst (save_all m (map Object datas) w) = map (fun _ => saved_ok) subs /\
  fst (load_admins m (snd (save_all m (map Object datas) w))) =
    JsonList (map admin_row subs) 200 /\
  Forall (fun r => dom (named r) = row_keys /\ surplus r = None) (map admin_row subs).
Proof.
  intros Hfile Hsub Hval Hfit Hnd.
  destruct (save_all_store m subs datas [] w) as [E1 E2]; try done.
  split; [done|]. split.
  - by rewrite (load_admins_store m _ subs).
  - apply Forall_map, Forall_forall. intros a _. apply admin_row_keys.
Qed.

Lemma appends_then_list_witness :
  fst (save_all dev_server (map Object [alice; bob]) (fresh dev_server)) =
    map (fun _ => saved_ok) [alice_admin; bob_admin] /\
  fst (load_admins dev_server (snd (save_all dev_server (map Object [alice; bob]) (fresh dev_server)))) =
    JsonList (map admin_row [alice_admin; bob_admin]) 200 /\
  Forall (fun r => dom (named r) = row_keys /\ surplus r = None)
         (map admin_row [alice_admin; bob_admin]).
Proof.
  apply (appends_then_list dev_server (fresh dev_server) [alice; bob] [alice_admin; bob_admin]).
  - reflexivity.
  - repeat constructor.
  - repeat constructor; discriminate.
  - repeat constructor; apply fits_short; vm_compute; lia.
  - apply NoDup_cons. split.
    + intros H. apply list_elem_of_singleton in H. discriminate H.
    + apply NoDup_singleton.
Defined.

(** C6 as stated fails: of two submissions with distinct emails and
    non-empty required values, the first, whose password has 131073
    characters, is appended; after it the reader refuses the file, so the
    second Append and the List both end in a server error.  And when the
    first submission holds a lone surrogate, it is answered with a server
    error and the List returns the second record alone. *)
Lemma appends_then_list_long_field :
  fst (save_all dev_server [Object long_password; Object alice] (fresh dev_server)) =
    [saved_ok; field_too_large] /\
  fst (load_admins dev_server
         (snd (save_all dev_server [Object long_password; Object alice] (fresh dev_server)))) =
    field_too_large /\
  fst (save_all dev_server [Object surrogate_name; Object alice] (fresh dev_server)) =
    [not_encoded; saved_ok] /\
  fst (load_admins dev_server
         (snd (save_all dev_server [Object surrogate_name; Object alice] (fresh dev_server)))) =
    JsonList [admin_row alice_admin] 200.
Proof. vm_compute. repeat split. Qed.

(** * The storage path and the profile *)

(** The path the handlers open does not depend on the environment. *)
Lemma csv_file_path_ignores_profile (environ environ' : gmap string string)
    (base_dir : string) (m m' : server) :
  globals environ base_dir = Return m -> globals environ' base_dir = Return m' ->
  csv_file_path m = csv_file_path m'.
Proof.
  unfold globals. intros H H'.
  destruct (getitem config _); [|discriminate].
  destruct (getitem config _); [|discriminate].
  injection H as <-. injection H' as <-. reflexivity.
Qed.

(** C2 fails on the code: under the testing profile, whose CSV_FILE_PATH
    names a file of its own, the handlers still open the file that the
    development profile uses; an Append under testing adds its line to that
    file and leaves the testing path untouched. *)
Theorem testing_profile_shares_storage_file :
  globals testing_environ "/app" = Return testing_server /\
  globals ∅ "/app" = Return dev_server /\
  CSV_FILE_PATH (app_config testing_server) = "src/models/data/test_users.csv" /\
  csv_file_path testing_server = csv_file_path dev_server /\
  fst (save_admin testing_server (Object alice) (fresh dev_server)) = saved_ok /\
  files (snd (save_admin testing_server (Object alice) (fresh dev_server)))
    !! csv_file_path dev_server = Some (store [alice_admin]) /\
  files (snd (save_admin testing_server (Object alice) (fresh dev_server)))
    !! CSV_FILE_PATH (app_config testing_server) = None /\
  opened (snd (load_admins testing_server (fresh dev_server))) =
    [(csv_file_path dev_server, mode_r)].
Proof. vm_compute. repeat split. Qed.

(** * Uniqueness of emails *)

(** C5 fails on the code: the duplicate check compares the stored text
    with the submitted value, so an email submitted as the number 5 never
    matches the stored text 5.  From the file the module creates, the same
    payload is appended twice, and List returns two records with the same
    email. *)
Theorem numeric_email_stored_twice :
  startup ∅ "/app" no_files =
    (Return dev_server,
     {| files := files (fresh dev_server);
        opened := [(csv_file_path dev_server, mode_w)] |}) /\
  fst (save_all dev_server [Object numeric_email; Object numeric_email] (fresh dev_server)) =
    [saved_ok; saved_ok] /\
  fst (load_admins dev_server
         (snd (save_all dev_server [Object numeric_email; Object numeric_email]
                        (fresh dev_server)))) =
    JsonList [admin_row eve_admin; admin_row eve_admin] 200 /\
  named (admin_row eve_admin) !! "email" = Some (Some "5").
Proof. vm_compute. repeat split. Qed.

Lemma existsb_email_present (ads : list admin) (e : string) :
  e ∈ map ad_email ads -> existsb (fun a => String.eqb (ad_email a) e) ads = true.
Proof.
  induction ads as [|a ads IH]; simpl; intros Hin; [by apply elem_of_nil in Hin|].
  apply elem_of_cons in Hin as [->|Hin].
  - by rewrite String.eqb_refl.
  - rewrite IH by done. apply orb_true_r.
Qed.

Lemma textual_field (data : gmap string json) (k : string) :
  textual data -> k ∈ fieldnames -> truthy (field_of data k) = true ->
  exists s, data !! k = Some (JStr s) /\ s <> "" /\ fits s.
Proof.
  intros Ht Hk Htr. unfold field_of in Htr.
  destruct (data !! k) as [v|] eqn:E; [|done].
  destruct (Ht k v Hk E) as (s & -> & Hs).
  exists s. split; [done|]. split; [|done]. by destruct s.
Qed.

Lemma textual_created (data : gmap string json) :
  textual data -> exists s, default (JStr "") (data !! "created") = JStr s /\ fits s.
Proof.
  intros Ht. destruct (data !! "created") as [v|] eqn:E; simpl.
  - apply (Ht "created" v); [member|done].
  - exists "". split; [done|]. by apply fits_short; simpl; lia.
Qed.

(** With text payloads, every operation keeps the emails of the storage
    file pairwise distinct. *)
Lemma unique_emails_step (m : server) (w w' : world) :
  unique_emails m w -> step m w w' -> unique_emails m w'.
Proof.
  intros (ads & Hfile & Hfit & Hnd) Hstep. destruct Hstep as [data w Ht|w|w].
  - destruct (truthy (field_of data "username")) eqn:Tu;
      [|exists ads; by rewrite (save_admin_invalid m data w "username");
          [|member|]].
    destruct (truthy (field_of data "email")) eqn:Te;
      [|exists ads; by rewrite (save_admin_invalid m data w "email");
          [|member|]].
    destruct (truthy (field_of data "password")) eqn:Tp;
      [|exists ads; by rewrite (save_admin_invalid m data w "password");
          [|member|]].
    destruct (truthy (field_of data "role")) eqn:Tr;
      [|exists ads; by rewrite (save_admin_invalid m data w "role");
          [|member|]].
    apply textual_field in Tu as (u & Hu & Vu & Fu); [|done|member].
    apply textual_field in Te as (e & He & Ve & Fe); [|done|member].
    apply textual_field in Tp as (p & Hp & Vp & Fp); [|done|member].
    apply textual_field in Tr as (r & Hr & Vr & Fr); [|done|member].
    destruct (textual_created data Ht) as (c & Hc & Fc).
    destruct (decide (e ∈ map ad_email ads)) as [Hin|Hout].
    + exists ads. split; [|done].
      assert (save_admin m (Object data) w =
              (conflict, log_open (csv_file_path m) mode_r w)) as ->; [|done].
      handler. simpl.
      rewrite Hu, He, Hp, Hr. simpl. rewrite !is_empty_false by done. simpl.
      unfold open_r. rewrite Hfile.
      rewrite DictReader_store, email_exists_admins by done.
      by rewrite existsb_email_present.
    + exists (ads ++ [Build_admin u e p r c]).
      rewrite (save_admin_fresh m w ads data (Build_admin u e p r c)); try done.
      simpl. rewrite lookup_insert_eq. split; [done|]. split.
      * apply Forall_app. split; [done|]. repeat constructor; done.
      * rewrite map_app. simpl. apply NoDup_app. split; [done|].
        split; [|apply NoDup_singleton].
        intros x Hx Hx'. apply list_elem_of_singleton in Hx'. by subst.
  - exists ads. handler; unfold open_r, jsonify. rewrite Hfile.
    unfold lift. destruct (collect _) as [l|]; [|done]. by destruct (forallb sortable l).
  - exists []. rewrite clear_csv_cache_file. simpl. rewrite lookup_insert_eq.
    split; [reflexivity|]. split; [constructor|apply NoDup_nil_2].
Qed.

(** So every state reached from the file the module creates, by requests
    with text payloads, keeps them distinct. *)
Lemma unique_emails_reachable (m : server) (w : world) :
  rtc (step m) (fresh m) w -> unique_emails m w.
Proof.
  intros Hr.
  assert (unique_emails m (fresh m)) as H0.
  { exists []. unfold fresh. simpl. rewrite lookup_singleton_eq.
    split; [reflexivity|]. split; [constructor|apply NoDup_nil_2]. }
  revert H0. induction Hr as [|w1 w2 w3 Hs _ IH]; [done|].
  intros H1. apply IH. by apply (unique_emails_step m w1).
Qed.

(** * Further properties of the code *)

(** * A field beyond the size limit *)

Lemma add_char_full (fs : list string) (buf : list ascii) (n : N) (st : ParserState) (c : ascii) :
  (field_size_limit <= n)%N ->
  parse_add_char (Build_Reader fs buf n st) c = Raise too_large.
Proof.
  intros Hn. unfold parse_add_char. simpl.
  destruct (N.leb_spec field_size_limit n); [done|lia].
Qed.

Lemma slen_nonempty (s : string) : (0 < slen s)%N -> is_empty s = false.
Proof. destruct s; [unfold slen; simpl; lia|done]. Qed.

Lemma is_empty_app_l (s k : string) : is_empty s = false -> is_empty (s +:+ k) = false.
Proof. by destruct s. Qed.

Lemma is_empty_escape (s : string) : is_empty s = false -> is_empty (escape s) = false.
Proof. destruct s as [|c s]; [done|]. simpl. by destruct (Ascii.eqb c quotechar). Qed.

(** In an unquoted field the character that would exceed the limit makes
    the reader raise. *)
Lemma in_field_overflow (s : string) :
  forall (fs : list string) (buf : list ascii) (n : N) (k : string),
  must_quote s = false -> (n <= field_size_limit)%N ->
  (field_size_limit < n + slen s)%N ->
  reader_from (Build_Reader fs buf n IN_FIELD) (readlines (s +:+ k)) = Fail too_large.
Proof.
  induction s as [|c s IH]; intros fs buf n k Hq Hn Hover.
  - unfold slen in Hover. simpl in Hover. lia.
  - simpl in Hq. apply orb_false_iff in Hq as [Hc Hq].
    apply special_false in Hc as (Hd & Hqc & Hnl).
    rewrite slen_cons in Hover.
    rewrite append_cons, reader_from_cons.
    unfold parse_process_char. cbn [state]. rewrite Hnl, Hd.
    destruct (N.le_gt_cases field_size_limit n) as [Hfull|Hroom].
    + by rewrite add_char_full.
    + rewrite add_char_ok by done.
      rewrite ends_line_plain; [|done|].
      * apply IH; (done || lia).
      * apply is_empty_app_l, slen_nonempty. lia.
Qed.

(** The same inside quotes. *)
Lemma in_quoted_overflow (s : string) :
  forall (fs : list string) (buf : list ascii) (n : N) (k : string),
  (n <= field_size_limit)%N -> (field_size_limit < n + slen s)%N ->
  reader_from (Build_Reader fs buf n IN_QUOTED_FIELD) (readlines (escape s +:+ k)) =
  Fail too_large.
Proof.
  induction s as [|c s IH]; intros fs buf n k Hn Hover.
  - unfold slen in Hover. simpl in Hover. lia.
  - rewrite slen_cons in Hover. simpl escape.
    destruct (N.le_gt_cases field_size_limit n) as [Hfull|Hroom].
    + destruct (Ascii.eqb c quotechar) eqn:Hc.
      * apply Ascii.eqb_eq in Hc as ->.
        rewrite !append_cons, reader_from_cons, step_quoted_quote.
        rewrite ends_line_plain by done.
        rewrite reader_from_cons. unfold parse_process_char. cbn [state].
        change (Ascii.eqb quotechar quotechar) with true. cbv iota.
        by rewrite add_char_full.
      * rewrite append_cons, reader_from_cons. unfold parse_process_char.
        cbn [state]. rewrite Hc. by rewrite add_char_full.
    + assert (is_empty (escape s +:+ k) = false) as Hrest.
      { apply is_empty_app_l, is_empty_escape, slen_nonempty. lia. }
      destruct (Ascii.eqb c quotechar) eqn:Hc.
      * apply Ascii.eqb_eq in Hc as ->.
        rewrite !append_cons, reader_from_cons, step_quoted_quote.
        rewrite ends_line_plain by done.
        rewrite reader_from_cons, step_doubled_quote by done.
        rewrite ends_line_plain by done.
        apply IH; lia.
      * rewrite append_cons, reader_from_cons, step_quoted_char by done.
        rewrite after_line_quoted.
        assert (forall X : iter (list string),
                  (if ends_line c (escape s +:+ k) then X else X) = X) as ->
          by (intros; by destruct (ends_line _ _)).
        apply IH; lia.
Qed.

(** A field that does not fit makes the reader raise, whatever follows. *)
Lemma field_overflow (st : ParserState) (fs : list string) (s k : string) :
  at_start st -> ~ fits s ->
  reader_from (Build_Reader fs [] 0 st) (readlines (encode s +:+ k)) = Fail too_large.
Proof.
  intros Hst Hbig. unfold fits in Hbig.
  assert (field_size_limit < slen s)%N as Hover by lia.
  assert (0 < field_size_limit)%N as Hpos by (unfold field_size_limit; lia).
  unfold encode. destruct (must_quote s) eqn:Hq.
  - rewrite append_cons, append_assoc, reader_from_cons, step_start_quote by done.
    rewrite ends_line_plain; [|done|].
    + apply in_quoted_overflow; lia.
    + apply is_empty_app_l, is_empty_escape, slen_nonempty. lia.
  - rewrite escape_plain by done. destruct s as [|c s].
    + unfold slen in Hover. simpl in Hover. lia.
    + simpl in Hq. apply orb_false_iff in Hq as [Hc Hq].
      rewrite slen_cons in Hover.
      rewrite append_cons, reader_from_cons, step_start_char by done.
      rewrite ends_line_plain.
      * apply in_field_overflow; (done || lia).
      * by apply special_false in Hc as (_ & _ & ?).
      * apply is_empty_app_l, slen_nonempty. lia.
Qed.

Lemma fits_or_not (s : string) : fits s \/ ~ fits s.
Proof. unfold fits. destruct (N.le_gt_cases (slen s) field_size_limit); [by left|right; lia]. Qed.

Lemma is_empty_tail_app (t : string) (ss : list string) (k : string) :
  is_empty ((t +:+ tail_text ss) +:+ k) = false.
Proof.
  rewrite append_assoc. destruct (tail_text_cons ss) as (c & u & ->).
  rewrite append_cons. apply is_empty_app_cons.
Qed.

(** The first field of a line that does not fit makes the reader raise;
    the fields before it are read as usual. *)
Lemma row_overflow (ss : list string) :
  forall (fs : list string) (s : string) (st : ParserState) (k : string),
  at_start st -> ~ Forall fits (s :: ss) ->
  reader_from (Build_Reader fs [] 0 st) (readlines (encode s +:+ tail_text ss +:+ k)) =
  Fail too_large.
Proof.
  induction ss as [|s' ss IH]; intros fs s st k Hst Hbad.
  - apply field_overflow; [done|]. intros Hs. apply Hbad. by constructor.
  - destruct (fits_or_not s) as [Hs|Hs]; [|by apply field_overflow].
    simpl tail_text. rewrite append_cons.
    rewrite field_then_delimiter by (done || apply is_empty_tail_app).
    rewrite append_assoc. apply IH; [done|].
    intros Hrest. apply Hbad. by constructor.
Qed.

Lemma admin_fits_or_not (a : admin) : admin_fits a \/ ~ admin_fits a.
Proof.
  unfold admin_fits, admin_fields.
  destruct (fits_or_not (ad_username a)); [|right; inversion 1; done].
  destruct (fits_or_not (ad_email a)); [|right; inversion 1 as [|? ? ? H']; inversion H'; done].
  destruct (fits_or_not (ad_password a));
    [|right; intros H'; repeat (apply Forall_cons in H' as [? H']); done].
  destruct (fits_or_not (ad_role a));
    [|right; intros H'; repeat (apply Forall_cons in H' as [? H']); done].
  destruct (fits_or_not (ad_created a));
    [|right; intros H'; repeat (apply Forall_cons in H' as [? H']); done].
  left. by repeat constructor.
Qed.

Lemma admin_line_overflow (a : admin) (k : string) :
  ~ admin_fits a ->
  reader_from parse_reset (readlines (admin_line a +:+ k)) = Fail too_large.
Proof.
  intros Hbad. rewrite admin_line_text. unfold row_text.
  rewrite append_assoc. by apply row_overflow.
Qed.

(** The records of a list up to the first one that does not fit. *)
Lemma split_unfit (ads : list admin) :
  Forall admin_fits ads \/
  exists good bad rest,
    ads = good ++ bad :: rest /\ Forall admin_fits good /\ ~ admin_fits bad.
Proof.
  induction ads as [|a ads IH]; [by left|].
  destruct (admin_fits_or_not a) as [Ha|Ha].
  - destruct IH as [IH|(good & bad & rest & -> & Hg & Hb)].
    + left. by constructor.
    + right. exists (a :: good), bad, rest. repeat split; [|done]. by constructor.
  - right. exists [], a, ads. by repeat split.
Qed.

Lemma reader_records_fail (good : list admin) (bad : admin) (rest : list admin) :
  Forall admin_fits good -> ~ admin_fits bad ->
  reader_from parse_reset
    (readlines (foldr (fun a acc => admin_line a +:+ acc) "" (good ++ bad :: rest))) =
  then_fail (map admin_fields good) too_large.
Proof.
  intros Hgood Hbad. induction good as [|a good IH]; simpl foldr.
  - by rewrite admin_line_overflow.
  - inversion Hgood as [|? ? Ha Hg]; subst.
    unfold admin_fits, admin_fields in Ha. inversion Ha; subst.
    rewrite admin_line_text, row_text_read, IH by done. reflexivity.
Qed.

Lemma dict_rows_then_fail (ads : list admin) (e : exn) :
  dict_rows fieldnames (then_fail (map admin_fields ads) e) =
  then_fail (map admin_row ads) e.
Proof.
  induction ads as [|a ads IH]; [reflexivity|].
  change (dict_rows fieldnames (then_fail (map admin_fields (a :: ads)) e)) with
    (Yield (make_row fieldnames (admin_fields a))
           (dict_rows fieldnames (then_fail (map admin_fields ads) e))).
  by rewrite IH, make_row_admin.
Qed.

(** Reading a storage file with a record that does not fit: the records
    before it, then the exception. *)
Lemma DictReader_store_fail (good : list admin) (bad : admin) (rest : list admin) :
  Forall admin_fits good -> ~ admin_fits bad ->
  DictReader (store (good ++ bad :: rest)) = then_fail (map admin_row good) too_large.
Proof.
  intros Hgood Hbad. unfold DictReader, reader, store.
  rewrite header_text, row_text_read; [|done|by apply fits_short; simpl; lia|].
  - rewrite reader_records_fail by done. apply dict_rows_then_fail.
  - repeat constructor; apply fits_short; simpl; lia.
Qed.

Lemma collect_then_fail {A : Type} (l : list A) (e : exn) :
  collect (then_fail l e) = Raise e.
Proof.
  induction l as [|a l IH]; [done|].
  change (collect (then_fail (a :: l) e)) with
    (match collect (then_fail l e) with
     | Return l' => Return (a :: l')
     | Raise e' => Raise e'
     end).
  by rewrite IH.
Qed.

Lemma cell_eq_text (s : string) (v : json) :
  cell_eq (Some s) v = match v with JStr e => String.eqb s e | _ => false end.
Proof. by destruct v. Qed.

Lemma email_exists_store (ads : list admin) (v : json) :
  email_exists (of_list (map admin_row ads)) v = Return (email_match ads v).
Proof.
  induction ads as [|a ads IH]; [by destruct v|].
  change (email_exists (of_list (map admin_row (a :: ads))) v) with
    (if cell_eq (Some (ad_email a)) v then Return true
     else email_exists (of_list (map admin_row ads)) v).
  rewrite IH, cell_eq_text. destruct v; try done. simpl.
  by destruct (String.eqb (ad_email a) s).
Qed.

Lemma email_exists_then_fail (ads : list admin) (v : json) (e : exn) :
  email_exists (then_fail (map admin_row ads) e) v =
  if email_match ads v then Return true else Raise e.
Proof.
  induction ads as [|a ads IH]; [by destruct v|].
  change (email_exists (then_fail (map admin_row (a :: ads)) e) v) with
    (if cell_eq (Some (ad_email a)) v then Return true
     else email_exists (then_fail (map admin_row ads) e) v).
  rewrite IH, cell_eq_text. destruct v; try done. simpl.
  by destruct (String.eqb (ad_email a) s).
Qed.

(** * Append on a storage file, for every payload *)

Lemma line_of_values (data : gmap string json) :
  csv.writerow [field_of data "username"; field_of data "email";
                field_of data "password"; field_of data "role"; created_of data] =
  admin_line (record_of data).
Proof. by rewrite admin_line_text, writerow_text. Qed.

Lemma validation_test (data : gmap string json) :
  negb (truthy (field_of data "username")) || negb (truthy (field_of data "email"))
  || negb (truthy (field_of data "password")) || negb (truthy (field_of data "role")) =
  negb (complete data).
Proof.
  unfold complete.
  by destruct (truthy _), (truthy _), (truthy _), (truthy _).
Qed.

(** [save_admin] up to the end of the duplicate check, on any file text. *)
Lemma save_admin_scan (m : server) (w : world) (text : string) (data : gmap string json) :
  files w !! csv_file_path m = Some text ->
  complete data = true ->
  save_admin m (Object data) w =
  match email_exists (DictReader text) (field_of data "email") with
  | Raise e => (JsonDict false (StrOf e) 500, log_open (csv_file_path m) mode_r w)
  | Return true => (conflict, log_open (csv_file_path m) mode_r w)
  | Return false =>
      if encodes data
      then (saved_ok,
            {| files := <[csv_file_path m := text +:+ admin_line (record_of data)]> (files w);
               opened := opened w ++ [(csv_file_path m, mode_r); (csv_file_path m, mode_a)] |})
      else (not_encoded,
            {| files := files w;
               opened := opened w ++ [(csv_file_path m, mode_r); (csv_file_path m, mode_a)] |})
  end.
Proof.
  intros Hfile Hc. handler. simpl.
  fold (field_of data "username"). fold (field_of data "email").
  fold (field_of data "password"). fold (field_of data "role").
  rewrite validation_test, Hc. simpl.
  unfold open_r. rewrite Hfile.
  destruct (email_exists _ _) as [[]|e]; [done| |done].
  fold (created_of data). unfold writer_writerow.
  change (forallb encodable _) with (encodes data).
  destruct (encodes data); unfold open_a, file_write, log_open; simpl.
  - rewrite Hfile. simpl. rewrite lookup_insert_eq, insert_insert_eq. simpl.
    rewrite <- line_of_values. unfold saved_ok. by rewrite <- app_assoc.
  - rewrite Hfile. simpl. rewrite insert_id by done. unfold not_encoded.
    by rewrite <- app_assoc.
Qed.

Lemma save_admin_incomplete (m : server) (w : world) (data : gmap string json) :
  complete data = false -> save_admin m (Object data) w = (rejected, w).
Proof.
  intros Hc. handler. simpl.
  fold (field_of data "username"). fold (field_of data "email").
  fold (field_of data "password"). fold (field_of data "role").
  by rewrite validation_test, Hc.
Qed.

(** [save_admin] on a storage file whose records all fit. *)
Lemma save_admin_store_cases (m : server) (w : world) (ads : list admin)
    (data : gmap string json) :
  files w !! csv_file_path m = Some (store ads) ->
  Forall admin_fits ads ->
  save_admin m (Object data) w =
  if negb (complete data) then (rejected, w)
  else if email_match ads (field_of data "email")
  then (conflict, log_open (csv_file_path m) mode_r w)
  else if encodes data
  then (saved_ok,
        {| files := <[csv_file_path m := store (ads ++ [record_of data])]> (files w);
           opened := opened w ++ [(csv_file_path m, mode_r); (csv_file_path m, mode_a)] |})
  else (not_encoded,
        {| files := files w;
           opened := opened w ++ [(csv_file_path m, mode_r); (csv_file_path m, mode_a)] |}).
Proof.
  intros Hfile Hfit. destruct (complete data) eqn:Hc; simpl.
  - rewrite (save_admin_scan m w (store ads)) by done.
    rewrite DictReader_store, email_exists_store by done.
    destruct (email_match _ _); [done|]. by rewrite store_snoc.
  - by apply save_admin_incomplete.
Qed.

(** [save_admin] on a storage file with a record that does not fit. *)
Lemma save_admin_unfit_cases (m : server) (w : world) (good : list admin) (bad : admin)
    (rest : list admin) (data : gmap string json) :
  files w !! csv_file_path m = Some (store (good ++ bad :: rest)) ->
  Forall admin_fits good -> ~ admin_fits bad ->
  save_admin m (Object data) w =
  if negb (complete data) then (rejected, w)
  else if email_match good (field_of data "email")
  then (conflict, log_open (csv_file_path m) mode_r w)
  else (field_too_large, log_open (csv_file_path m) mode_r w).
Proof.
  intros Hfile Hgood Hbad. destruct (complete data) eqn:Hc; simpl.
  - rewrite (save_admin_scan m w (store (good ++ bad :: rest))) by done.
    rewrite DictReader_store_fail, email_exists_then_fail by done.
    by destruct (email_match _ _).
  - by apply save_admin_incomplete.
Qed.

Lemma load_admins_unfit (m : server) (w : world) (good : list admin) (bad : admin)
    (rest : list admin) :
  files w !! csv_file_path m = Some (store (good ++ bad :: rest)) ->
  Forall admin_fits good -> ~ admin_fits bad ->
  load_admins m w = (field_too_large, log_open (csv_file_path m) mode_r w).
Proof.
  intros Hfile Hgood Hbad. handler; unfold open_r. rewrite Hfile.
  by rewrite DictReader_store_fail, collect_then_fail.
Qed.

(** * Importing the module *)

(** The import, case by case. *)
Lemma startup_cases (environ : gmap string string) (base_dir : string) (w : world) :
  startup environ base_dir w =
  match globals environ base_dir with
  | Raise e => (Raise e, w)
  | Return m =>
      match files w !! csv_file_path m with
      | Some _ => (Return m, w)
      | None => (Return m, {| files := <[csv_file_path m := header_line]> (files w);
                              opened := opened w ++ [(csv_file_path m, mode_w)] |})
      end
  end.
Proof.
  unfold startup, bind, lift.
  destruct (globals environ base_dir) as [m|e]; [|done].
  unfold ensure_csv_file, os_path_exists, bind, ret.
  destruct (files w !! csv_file_path m) as [text|] eqn:Hf.
  - by rewrite bool_decide_eq_true_2 by eauto.
  - rewrite bool_decide_eq_false_2 by (intros [? ?]; done).
    unfold open_w, file_write. simpl.
    by rewrite lookup_insert_eq, insert_insert_eq.
Qed.

(** X1: when the profile lookup succeeds and the storage file is missing,
    the import creates it with exactly the header line (one open for
    writing), and a List on the result returns the empty list. *)
Theorem startup_creates_storage_file (environ : gmap string string) (base_dir : string)
    (m : server) (w : world) :
  globals environ base_dir = Return m ->
  files w !! csv_file_path m = None ->
  startup environ base_dir w =
    (Return m, {| files := <[csv_file_path m := header_line]> (files w);
                  opened := opened w ++ [(csv_file_path m, mode_w)] |}) /\
  fst (load_admins m (snd (startup environ base_dir w))) = JsonList [] 200.
Proof.
  intros Hg Hnone.
  assert (startup environ base_dir w =
    (Return m, {| files := <[csv_file_path m := header_line]> (files w);
                  opened := opened w ++ [(csv_file_path m, mode_w)] |})) as E.
  { by rewrite startup_cases, Hg, Hnone. }
  split; [exact E|]. rewrite E. simpl.
  handler; unfold open_r. simpl. by rewrite lookup_insert_eq.
Qed.

Lemma startup_creates_storage_file_witness :
  startup ∅ "/app" no_files =
    (Return dev_server,
     {| files := <[csv_file_path dev_server := header_line]> (files no_files);
        opened := opened no_files ++ [(csv_file_path dev_server, mode_w)] |}) /\
  fst (load_admins dev_server (snd (startup ∅ "/app" no_files))) = JsonList [] 200.
Proof.
  apply (startup_creates_storage_file ∅ "/app" dev_server no_files); reflexivity.
Defined.

(** X2: when the storage file exists, whatever it holds, the import
    leaves the world as it is: nothing is opened, nothing is written. *)
Theorem startup_keeps_existing_file (environ : gmap string string) (base_dir : string)
    (m : server) (w : world) (text : string) :
  globals environ base_dir = Return m ->
  files w !! csv_file_path m = Some text ->
  startup environ base_dir w = (Return m, w).
Proof.
  intros Hg Hsome. by rewrite startup_cases, Hg, Hsome.
Qed.

Lemma startup_keeps_existing_file_witness :
  startup ∅ "/app" (with_alice dev_server) = (Return dev_server, with_alice dev_server).
Proof.
  apply (startup_keeps_existing_file ∅ "/app" dev_server (with_alice dev_server)
           (store [alice_admin])); reflexivity.
Defined.

(** X3: with FLASK_ENV set to a name the [config] dictionary does not
    have, the import stops with [KeyError] before the storage file is
    looked at: the world is unchanged. *)
Theorem startup_unknown_profile (environ : gmap string string) (base_dir e : string)
    (w : world) :
  environ !! "FLASK_ENV" = Some e ->
  e <> "development" -> e <> "testing" -> e <> "production" -> e <> "default" ->
  startup environ base_dir w = (Raise (KeyError e), w).
Proof.
  intros He H1 H2 H3 H4.
  rewrite startup_cases. unfold globals, os_getenv, getitem. rewrite He. simpl.
  by rewrite config_lookup_other.
Qed.

Lemma startup_unknown_profile_witness :
  startup (<["FLASK_ENV" := "staging"]> ∅) "/app" no_files =
  (Raise (KeyError "staging"), no_files).
Proof.
  apply (startup_unknown_profile (<["FLASK_ENV" := "staging"]> ∅) "/app" "staging" no_files);
    [reflexivity|discriminate..].
Defined.

(** X4: importing twice is the same as importing once: the second import
    finds the file and changes nothing. *)
Theorem startup_idempotent (environ : gmap string string) (base_dir : string) (w : world) :
  startup environ base_dir (snd (startup environ base_dir w)) =
  (fst (startup environ base_dir w), snd (startup environ base_dir w)).
Proof.
  rewrite (startup_cases environ base_dir w).
  destruct (globals environ base_dir) as [m|e] eqn:Hg;
    [|by rewrite startup_cases, Hg].
  destruct (files w !! csv_file_path m) as [text|] eqn:Hf; simpl.
  - by rewrite startup_cases, Hg, Hf.
  - by rewrite startup_cases, Hg; simpl; rewrite lookup_insert_eq.
Qed.

(** * The exit hook and the next start *)

(** X19: after the exit hook has run, the next import finds the
    header-only file and keeps it: whatever was stored before the exit is
    gone after a restart. *)
Theorem restart_forgets_records (environ : gmap string string) (base_dir : string)
    (m : server) (w : world) :
  globals environ base_dir = Return m ->
  startup environ base_dir (snd (clear_csv_cache m w)) =
    (Return m, snd (clear_csv_cache m w)) /\
  files (snd (startup environ base_dir (snd (clear_csv_cache m w)))) !! csv_file_path m =
    Some header_line.
Proof.
  intros Hg. rewrite clear_csv_cache_file. simpl.
  assert (startup environ base_dir
    {| files := <[csv_file_path m := header_line]> (files w);
       opened := opened w ++ [(csv_file_path m, mode_w)] |} =
    (Return m, {| files := <[csv_file_path m := header_line]> (files w);
                  opened := opened w ++ [(csv_file_path m, mode_w)] |})) as E.
  { rewrite startup_cases, Hg. simpl. by rewrite lookup_insert_eq. }
  rewrite E. split; [done|]. simpl. by rewrite lookup_insert_eq.
Qed.

Lemma restart_forgets_records_witness :
  startup ∅ "/app" (snd (clear_csv_cache dev_server (with_alice dev_server))) =
    (Return dev_server, snd (clear_csv_cache dev_server (with_alice dev_server))) /\
  files (snd (startup ∅ "/app" (snd (clear_csv_cache dev_server (with_alice dev_server)))))
    !! csv_file_path dev_server = Some header_line.
Proof.
  apply (restart_forgets_records ∅ "/app" dev_server (with_alice dev_server)).
  reflexivity.
Defined.

(** * The profiles *)

Lemma config_lookup_cases (name : string) (p : profile) :
  config !! name = Some p ->
  (name = "development" /\ p = DevelopmentConfig) \/
  (name = "testing" /\ p = TestingConfig) \/
  (name = "production" /\ p = ProductionConfig) \/
  (name = "default" /\ p = DevelopmentConfig).
Proof.
  unfold config. intros H.
  destruct (decide (name = "development")) as [->|H1];
    [rewrite lookup_insert_eq in H; injection H as <-; by left|].
  rewrite lookup_insert_ne in H by done.
  destruct (decide (name = "testing")) as [->|H2];
    [rewrite lookup_insert_eq in H; injection H as <-; right; by left|].
  rewrite lookup_insert_ne in H by done.
  destruct (decide (name = "production")) as [->|H3];
    [rewrite lookup_insert_eq in H; injection H as <-; right; right; by left|].
  rewrite lookup_insert_ne in H by done.
  destruct (decide (name = "default")) as [->|H4];
    [rewrite lookup_insert_eq in H; injection H as <-; by repeat right|].
  rewrite lookup_insert_ne in H by done. by rewrite lookup_empty in H.
Qed.

(** X20: every class the [config] dictionary maps to carries the base
    settings unchanged: the header list (the one server.py writes as the
    header row), the session lifetime of 3600 seconds, the 16 MiB body
    limit, the filesystem session type and CSRF_ENABLED. *)
Theorem profiles_share_base_settings (name : string) (p : profile) :
  config !! name = Some p ->
  map JStr (CSV_HEADERS p) = header /\
  PERMANENT_SESSION_LIFETIME p = 3600 /\
  MAX_CONTENT_LENGTH p = 16777216 /\
  SESSION_TYPE p = "filesystem" /\
  CSRF_ENABLED p = true.
Proof.
  intros H.
  destruct (config_lookup_cases name p H) as [[_ ->]|[[_ ->]|[[_ ->]|[_ ->]]]];
    by repeat split.
Qed.

Lemma profiles_share_base_settings_witness :
  map JStr (CSV_HEADERS TestingConfig) = header /\
  PERMANENT_SESSION_LIFETIME TestingConfig = 3600 /\
  MAX_CONTENT_LENGTH TestingConfig = 16777216 /\
  SESSION_TYPE TestingConfig = "filesystem" /\
  CSRF_ENABLED TestingConfig = true.
Proof. apply (profiles_share_base_settings "testing" TestingConfig). reflexivity. Defined.

(** X21: among the selectable profiles, DEBUG is off exactly under the
    name [production], and TESTING is on exactly under the name
    [testing]. *)
Theorem debug_and_testing_flags (name : string) (p : profile) :
  config !! name = Some p ->
  (DEBUG p = false <-> name = "production") /\
  (TESTING p = true <-> name = "testing").
Proof.
  intros H.
  destruct (config_lookup_cases name p H) as [[-> ->]|[[-> ->]|[[-> ->]|[-> ->]]]];
    simpl; (split; split; (done || discriminate)).
Qed.

Lemma debug_and_testing_flags_witness :
  (DEBUG ProductionConfig = false <-> "production" = "production") /\
  (TESTING ProductionConfig = true <-> "production" = "testing").
Proof. apply (debug_and_testing_flags "production" ProductionConfig). reflexivity. Defined.

(** X22: under FLASK_ENV=production the secret key and the CSV path of
    the profile are the literal placeholder texts, whatever else the
    process environment defines: no environment variable is read for them,
    and the fallback path of the conditional expression is never taken. *)
Theorem production_placeholders (environ : gmap string string) (base_dir : string)
    (m : server) :
  environ !! "FLASK_ENV" = Some "production" ->
  globals environ base_dir = Return m ->
  SECRET_KEY (app_config m) = "${SECRET_KEY}" /\
  CSV_FILE_PATH (app_config m) = "${CSV_FILE_PATH}".
Proof.
  intros He Hg. unfold globals, os_getenv in Hg. rewrite He in Hg. simpl in Hg.
  injection Hg as <-. by split.
Qed.

(** * The storage path *)

Lemma endswith_app (a b : string) (c : ascii) :
  is_empty b = false -> endswith (a +:+ b) c = endswith b c.
Proof.
  intros Hb. induction a as [|x a IH]; [done|].
  rewrite append_cons, <- IH.
  assert (is_empty (a +:+ b) = false) as Hne by (destruct a; done).
  by destruct (a +:+ b).
Qed.

Lemma os_path_join_relative (a b : string) :
  is_empty a = false -> endswith a "/" = false -> startswith b "/" = false ->
  os_path_join a b = a +:+ "/" +:+ b.
Proof. intros Ha He Hb. unfold os_path_join. by rewrite Hb, Ha, He. Qed.

Lemma is_empty_app_r (a s : string) : is_empty s = false -> is_empty (a +:+ s) = false.
Proof. intros Hs. destruct a; done. Qed.

Lemma os_path_join_under (a suffix b : string) :
  is_empty suffix = false -> endswith suffix "/" = false -> startswith b "/" = false ->
  os_path_join (a +:+ suffix) b = a +:+ suffix +:+ "/" +:+ b.
Proof.
  intros Hs He Hb. rewrite os_path_join_relative.
  - by rewrite append_assoc.
  - by apply is_empty_app_r.
  - by rewrite endswith_app.
  - done.
Qed.

(** X23: for a directory name that is not empty and does not end in a
    slash, the storage path is that name followed by
    /src/models/data/users.csv, whatever the environment selects. *)
Theorem storage_path_shape (environ : gmap string string) (base_dir : string) (m : server) :
  globals environ base_dir = Return m ->
  is_empty base_dir = false -> endswith base_dir "/" = false ->
  DATA_DIR m = base_dir +:+ "/src/models/data" /\
  csv_file_path m = base_dir +:+ "/src/models/data/users.csv".
Proof.
  intros Hg Hne Hend. unfold globals in Hg.
  destruct (getitem config _); [|discriminate]. injection Hg as <-. simpl.
  rewrite (os_path_join_relative base_dir "src") by done.
  change (base_dir +:+ "/" +:+ "src") with (base_dir +:+ "/src").
  rewrite (os_path_join_under base_dir "/src" "models") by done.
  change (base_dir +:+ "/src" +:+ "/" +:+ "models") with (base_dir +:+ "/src/models").
  rewrite (os_path_join_under base_dir "/src/models" "data") by done.
  change (base_dir +:+ "/src/models" +:+ "/" +:+ "data")
    with (base_dir +:+ "/src/models/data").
  by rewrite (os_path_join_under base_dir "/src/models/data" "users.csv").
Qed.

Lemma storage_path_shape_witness :
  DATA_DIR testing_server = "/app" +:+ "/src/models/data" /\
  csv_file_path testing_server = "/app" +:+ "/src/models/data/users.csv".
Proof.
  apply (storage_path_shape testing_environ "/app" testing_server); reflexivity.
Defined.

Lemma production_placeholders_witness :
  SECRET_KEY (app_config production_server) = "${SECRET_KEY}" /\
  CSV_FILE_PATH (app_config production_server) = "${CSV_FILE_PATH}".
Proof.
  apply (production_placeholders production_environ "/app" production_server);
    reflexivity.
Defined.

(** * List on any file *)

(** X5: a List never changes a file, whatever the files hold; it opens
    the storage file once, for reading, and answers 200 or 500. *)
Theorem load_admins_read_only (m : server) (w : world) :
  files (snd (load_admins m w)) = files w /\
  opened (snd (load_admins m w)) = opened w ++ [(csv_file_path m, mode_r)] /\
  (status_code (fst (load_admins m w)) = 200 \/
   status_code (fst (load_admins m w)) = 500).
Proof.
  handler; unfold open_r, jsonify.
  destruct (files w !! csv_file_path m) as [text|]; simpl.
  - destruct (collect (DictReader text)) as [l|]; simpl; [|repeat split; auto].
    destruct (forallb sortable l); simpl; repeat split; auto.
  - repeat split; auto.
Qed.

(** X6: without a storage file, List answers 500 with the text of the
    FileNotFoundError, and creates nothing. *)
Theorem load_admins_missing_file (m : server) (w : world) :
  files w !! csv_file_path m = None ->
  fst (load_admins m w) = not_found m /\
  files (snd (load_admins m w)) !! csv_file_path m = None.
Proof.
  intros Hnone. handler; unfold open_r. by rewrite Hnone.
Qed.

Lemma load_admins_missing_file_witness :
  fst (load_admins dev_server no_files) = not_found dev_server /\
  files (snd (load_admins dev_server no_files)) !! csv_file_path dev_server = None.
Proof. apply (load_admins_missing_file dev_server no_files). reflexivity. Defined.






(** A row longer than the first row carries its surplus values under the
    key [None]; [jsonify] cannot sort that key with the names, and List
    answers 500. *)
Example load_admins_surplus_row :
  load_admins dev_server foreign =
  (not_sorted, log_open (csv_file_path dev_server) mode_r foreign).
Proof. vm_compute. reflexivity. Qed.



(** X8: on a storage file the service wrote, List returns the records
    when every stored text fits the field size limit, and answers 500 with
    the reader's error when one does not. *)
Theorem list_succeeds_iff_fields_fit (m : server) (w : world) (ads : list admin) :
  files w !! csv_file_path m = Some (store ads) ->
  (Forall admin_fits ads -> fst (load_admins m w) = JsonList (map admin_row ads) 200) /\
  (~ Forall admin_fits ads -> fst (load_admins m w) = field_too_large).
Proof.
  intros Hfile. split.
  - intros Hfit. by rewrite (load_admins_store m w ads).
  - intros Hbad. destruct (split_unfit ads) as [Hfit|(good & bad & rest & -> & Hg & Hb)];
      [done|].
    by rewrite (load_admins_unfit m w good bad rest).
Qed.

Lemma list_succeeds_iff_fields_fit_witness :
  (Forall admin_fits [alice_admin] ->
   fst (load_admins dev_server (with_alice dev_server)) =
     JsonList (map admin_row [alice_admin]) 200) /\
  (~ Forall admin_fits [alice_admin] ->
   fst (load_admins dev_server (with_alice dev_server)) = field_too_large).
Proof.
  apply (list_succeeds_iff_fields_fit dev_server (with_alice dev_server) [alice_admin]).
  reflexivity.
Defined.

(** * Append on any file *)

Lemma save_admin_no_file (m : server) (w : world) (data : gmap string json) :
  complete data = true -> files w !! csv_file_path m = None ->
  save_admin m (Object data) w = (not_found m, log_open (csv_file_path m) mode_r w).
Proof.
  intros Hc Hnone. handler. simpl.
  fold (field_of data "username"). fold (field_of data "email").
  fold (field_of data "password"). fold (field_of data "role").
  rewrite validation_test, Hc. simpl. unfold open_r. by rewrite Hnone.
Qed.

Lemma save_admin_outcome (m : server) (request : request_json) (w : world) :
  outcome m w (save_admin m request w).
Proof.
  destruct request as [data|].
  - destruct (complete data) eqn:Hc.
    + destruct (files w !! csv_file_path m) as [text|] eqn:Hf.
      * rewrite (save_admin_scan m w text) by done.
        destruct (email_exists _ _) as [[]|e].
        -- apply out_read. by left.
        -- destruct (encodes data); [by apply out_write|by apply out_open].
        -- apply out_read. by right.
      * rewrite save_admin_no_file by done. apply out_read. by right.
    + rewrite save_admin_incomplete by done. apply out_early. by left.
  - rewrite save_admin_not_object. apply out_early. by right.
Qed.

(** X9: an Append that passes the validation on a missing storage file
    answers 500 with the text of the FileNotFoundError; the file is not
    created. *)
Theorem save_admin_missing_file (m : server) (w : world) (data : gmap string json) :
  complete data = true ->
  files w !! csv_file_path m = None ->
  fst (save_admin m (Object data) w) = not_found m /\
  files (snd (save_admin m (Object data) w)) = files w.
Proof. intros Hc Hnone. by rewrite save_admin_no_file. Qed.

Lemma save_admin_missing_file_witness :
  fst (save_admin dev_server (Object alice) no_files) = not_found dev_server /\
  files (snd (save_admin dev_server (Object alice) no_files)) = files no_files.
Proof. apply (save_admin_missing_file dev_server no_files alice); reflexivity. Defined.

(** X10: for every request body and every world, Append answers with
    status 200, 400, 409 or 500; the files change only under a 200 answer,
    and a 200 answer is only given when the storage file existed. *)
Theorem save_admin_status_and_effect (m : server) (request : request_json) (w : world) :
  status_code (fst (save_admin m request w)) ∈ [200; 400; 409; 500] /\
  (status_code (fst (save_admin m request w)) <> 200 ->
   files (snd (save_admin m request w)) = files w) /\
  (status_code (fst (save_admin m request w)) = 200 ->
   is_Some (files w !! csv_file_path m)).
Proof.
  destruct (save_admin_outcome m request w) as [r [H|H]|r [H|H]|r H Hf|text line Hf];
    simpl; rewrite ?H; (split; [repeat constructor|]); split; (done || eauto).
Qed.

(** X11: an Append never removes or rewrites what the storage file
    holds: the old text is a prefix of the new text. *)
Theorem save_admin_append_only (m : server) (request : request_json) (w : world)
    (old : string) :
  files w !! csv_file_path m = Some old ->
  exists suffix,
    files (snd (save_admin m request w)) !! csv_file_path m = Some (old +:+ suffix).
Proof.
  intros Hold.
  destruct (save_admin_outcome m request w) as [r _|r _|r _ _|text line Hf]; simpl.
  - exists "". by rewrite append_nil_r.
  - exists "". by rewrite append_nil_r.
  - exists "". by rewrite append_nil_r.
  - exists line. rewrite lookup_insert_eq. congruence.
Qed.

Lemma save_admin_append_only_witness :
  exists suffix,
    files (snd (save_admin dev_server (Object bob) (with_alice dev_server)))
      !! csv_file_path dev_server = Some (store [alice_admin] +:+ suffix).
Proof.
  apply (save_admin_append_only dev_server (Object bob) (with_alice dev_server)).
  reflexivity.
Defined.

(** X12: no handler touches any file other than the storage file: under
    every other path the files are the same after Append, after List and
    after the exit hook. *)
Theorem handlers_touch_only_storage_file (m : server) (request : request_json)
    (w : world) (p : string) :
  p <> csv_file_path m ->
  files (snd (save_admin m request w)) !! p = files w !! p /\
  files (snd (load_admins m w)) !! p = files w !! p /\
  files (snd (clear_csv_cache m w)) !! p = files w !! p.
Proof.
  intros Hp. split; [|split].
  - destruct (save_admin_outcome m request w) as [r _|r _|r _ _|text line Hf]; simpl;
      [done..|]. by rewrite lookup_insert_ne.
  - handler; unfold open_r, jsonify.
    destruct (files w !! csv_file_path m); simpl; [|done].
    destruct (collect _) as [l|]; [|done]. by destruct (forallb sortable l).
  - rewrite clear_csv_cache_file. simpl. by rewrite lookup_insert_ne.
Qed.

Lemma handlers_touch_only_storage_file_witness :
  files (snd (save_admin dev_server (Object bob) with_notes)) !! "/app/notes.txt" =
    files with_notes !! "/app/notes.txt" /\
  files (snd (load_admins dev_server with_notes)) !! "/app/notes.txt" =
    files with_notes !! "/app/notes.txt" /\
  files (snd (clear_csv_cache dev_server with_notes)) !! "/app/notes.txt" =
    files with_notes !! "/app/notes.txt".
Proof.
  apply (handlers_touch_only_storage_file dev_server (Object bob) with_notes "/app/notes.txt").
  discriminate.
Defined.

(** X13: an Append opens nothing, or the storage file for reading, or the
    storage file for reading and then for appending; it never opens a file
    for writing, so it never truncates. *)
Theorem save_admin_never_truncates (m : server) (request : request_json) (w : world) :
  exists l,
    opened (snd (save_admin m request w)) = opened w ++ l /\
    (l = [] \/ l = [(csv_file_path m, mode_r)] \/
     l = [(csv_file_path m, mode_r); (csv_file_path m, mode_a)]).
Proof.
  destruct (save_admin_outcome m request w) as [r _|r _|r _ _|text line Hf]; simpl.
  - exists []. split; [by rewrite app_nil_r|by left].
  - exists [(csv_file_path m, mode_r)]. split; [done|right; by left].
  - exists [(csv_file_path m, mode_r); (csv_file_path m, mode_a)].
    split; [done|right; by right].
  - exists [(csv_file_path m, mode_r); (csv_file_path m, mode_a)].
    split; [done|right; by right].
Qed.

(** * Append on a storage file the service wrote *)

Lemma email_match_spec (ads : list admin) (v : json) :
  email_match ads v = true <-> exists e, v = JStr e /\ e ∈ map ad_email ads.
Proof.
  split.
  - destruct v as [| | |e| |]; simpl; try discriminate. intros H. exists e. split; [done|].
    destruct (decide (e ∈ map ad_email ads)) as [Hin|Hout]; [done|].
    by rewrite existsb_email_fresh in H.
  - intros (e & -> & Hin). simpl. by apply existsb_email_present.
Qed.

(** A username with a lone surrogate passes the validation and the
    duplicate check; the file is opened for appending, the encoder refuses
    the line, and nothing is written. *)
Example append_lone_surrogate :
  save_admin dev_server (Object surrogate_name) (fresh dev_server) =
  (not_encoded,
   {| files := files (fresh dev_server);
      opened := [(csv_file_path dev_server, mode_r); (csv_file_path dev_server, mode_a)] |}).
Proof. vm_compute. reflexivity. Qed.

(** X14: on a storage file whose records fit the limit, an Append that
    passes the validation is answered 409 exactly when the submitted email
    is a text equal to a stored email; an email that is not a text never
    conflicts.  Without a conflict the answer is 200 when UTF-8 can encode
    the five values, and 500 with the text of the UnicodeEncodeError, the
    files being as before, when one of them holds a lone surrogate. *)
Theorem append_conflict_iff_stored_text_email (m : server) (w : world) (ads : list admin)
    (data : gmap string json) :
  files w !! csv_file_path m = Some (store ads) ->
  Forall admin_fits ads ->
  complete data = true ->
  (fst (save_admin m (Object data) w) = conflict <->
   exists e, field_of data "email" = JStr e /\ e ∈ map ad_email ads) /\
  (fst (save_admin m (Object data) w) = conflict \/
   (encodes data = true /\ fst (save_admin m (Object data) w) = saved_ok) \/
   (encodes data = false /\ fst (save_admin m (Object data) w) = not_encoded /\
    files (snd (save_admin m (Object data) w)) = files w)).
Proof.
  intros Hfile Hfit Hc. rewrite (save_admin_store_cases m w ads) by done.
  rewrite Hc. simpl. rewrite <- email_match_spec.
  destruct (email_match ads (field_of data "email")); simpl.
  - split; [done|by left].
  - destruct (encodes data); simpl.
    + split; [split; discriminate|]. right. by left.
    + split; [split; discriminate|]. right. by right.
Qed.

Lemma append_conflict_iff_stored_text_email_witness :
  (fst (save_admin dev_server (Object alice_again) (with_alice dev_server)) = conflict <->
   exists e, field_of alice_again "email" = JStr e /\ e ∈ map ad_email [alice_admin]) /\
  (fst (save_admin dev_server (Object alice_again) (with_alice dev_server)) = conflict \/
   (encodes alice_again = true /\
    fst (save_admin dev_server (Object alice_again) (with_alice dev_server)) = saved_ok) \/
   (encodes alice_again = false /\
    fst (save_admin dev_server (Object alice_again) (with_alice dev_server)) = not_encoded /\
    files (snd (save_admin dev_server (Object alice_again) (with_alice dev_server))) =
      files (with_alice dev_server))).
Proof.
  apply (append_conflict_iff_stored_text_email dev_server (with_alice dev_server)
           [alice_admin] alice_again).
  - reflexivity.
  - repeat constructor; apply fits_short; simpl; lia.
  - reflexivity.
Defined.

(** X15: values of any JSON type round-trip as text: on a storage file
    whose records fit, a payload that passes the validation, whose email
    matches no stored one and whose five values UTF-8 can encode is
    appended, and the List that follows returns, after the stored records,
    the record made of the [str()] text of each submitted value (the empty
    text for null and for a missing created), provided those texts fit the
    limit. *)
Theorem append_then_list_any_values (m : server) (w : world) (ads : list admin)
    (data : gmap string json) :
  files w !! csv_file_path m = Some (store ads) ->
  Forall admin_fits ads ->
  complete data = true ->
  email_match ads (field_of data "email") = false ->
  encodes data = true ->
  admin_fits (record_of data) ->
  fst (save_admin m (Object data) w) = saved_ok /\
  fst (load_admins m (snd (save_admin m (Object data) w))) =
    JsonList (map admin_row ads ++ [admin_row (record_of data)]) 200.
Proof.
  intros Hfile Hfit Hc Hm He Ha. rewrite (save_admin_store_cases m w ads) by done.
  rewrite Hc, Hm, He. simpl. split; [done|].
  rewrite (load_admins_store m _ (ads ++ [record_of data])).
  - simpl. by rewrite map_app.
  - simpl. by rewrite lookup_insert_eq.
  - apply Forall_app. split; [done|]. by constructor.
Qed.

Lemma append_then_list_any_values_witness :
  fst (save_admin dev_server (Object mixed) (with_alice dev_server)) = saved_ok /\
  fst (load_admins dev_server (snd (save_admin dev_server (Object mixed) (with_alice dev_server)))) =
    JsonList (map admin_row [alice_admin] ++
              [admin_row {| ad_username := "7"; ad_email := "m@x.com";
                            ad_password := "True"; ad_role := "['a', 'b']";
                            ad_created := "" |}]) 200.
Proof.
  apply (append_then_list_any_values dev_server (with_alice dev_server) [alice_admin] mixed).
  - reflexivity.
  - repeat constructor; apply fits_short; simpl; lia.
  - reflexivity.
  - reflexivity.
  - reflexivity.
  - repeat constructor; apply fits_short; vm_compute; lia.
Defined.

(** X16: once the storage file holds a text beyond the field size limit,
    no Append succeeds any more and none changes the files, whatever the
    request. *)
Theorem no_append_after_long_field (m : server) (w : world) (ads : list admin)
    (request : request_json) :
  files w !! csv_file_path m = Some (store ads) ->
  ~ Forall admin_fits ads ->
  fst (save_admin m request w) <> saved_ok /\
  files (snd (save_admin m request w)) = files w.
Proof.
  intros Hfile Hbad.
  destruct (split_unfit ads) as [Hfit|(good & bad & rest & -> & Hg & Hb)]; [done|].
  destruct request as [data|]; [|by rewrite save_admin_not_object].
  rewrite (save_admin_unfit_cases m w good bad rest) by done.
  destruct (negb (complete data)); [done|].
  by destruct (email_match good (field_of data "email")).
Qed.

Lemma long_text_unfit : ~ Forall admin_fits [long_admin].
Proof.
  intros H. apply Forall_cons in H as [H _]. apply Forall_cons in H as [H _].
  unfold fits in H. vm_compute in H. by apply H.
Qed.

Lemma no_append_after_long_field_witness :
  fst (save_admin dev_server (Object bob) (with_long dev_server)) <> saved_ok /\
  files (snd (save_admin dev_server (Object bob) (with_long dev_server))) =
    files (with_long dev_server).
Proof.
  apply (no_append_after_long_field dev_server (with_long dev_server) [long_admin] (Object bob)).
  - reflexivity.
  - exact long_text_unfit.
Defined.

(** X17: on an empty (zero-length) storage file an Append that passes the
    validation, with values UTF-8 can encode and whose texts fit the field
    size limit, succeeds, but its line is the first of the file, so later
    reads take it for the header: the List that follows returns no
    record. *)
Theorem append_on_empty_file_lost (m : server) (w : world) (data : gmap string json) :
  files w !! csv_file_path m = Some "" ->
  complete data = true ->
  encodes data = true ->
  admin_fits (record_of data) ->
  fst (save_admin m (Object data) w) = saved_ok /\
  files (snd (save_admin m (Object data) w)) !! csv_file_path m =
    Some (admin_line (record_of data)) /\
  fst (load_admins m (snd (save_admin m (Object data) w))) = JsonList [] 200.
Proof.
  intros Hfile Hc He Ha. rewrite (save_admin_scan m w "") by done.
  change (email_exists (DictReader "") (field_of data "email")) with (@Return bool false).
  rewrite He. simpl. rewrite lookup_insert_eq. split; [done|]. split; [done|].
  handler; unfold open_r. simpl. rewrite lookup_insert_eq.
  change ("" +:+ admin_line (record_of data)) with (admin_line (record_of data)).
  assert (DictReader (admin_line (record_of data)) = Stop) as ->; [|done].
  unfold DictReader, reader.
  rewrite <- (append_nil_r (admin_line (record_of data))), admin_line_text.
  unfold admin_fits, admin_fields in Ha. inversion Ha; subst.
  by rewrite row_text_read.
Qed.

Lemma append_on_empty_file_lost_witness :
  fst (save_admin dev_server (Object alice) (empty_file dev_server)) = saved_ok /\
  files (snd (save_admin dev_server (Object alice) (empty_file dev_server)))
    !! csv_file_path dev_server = Some (admin_line (record_of alice)) /\
  fst (load_admins dev_server (snd (save_admin dev_server (Object alice) (empty_file dev_server)))) =
    JsonList [] 200.
Proof.
  apply (append_on_empty_file_lost dev_server (empty_file dev_server) alice).
  - reflexivity.
  - reflexivity.
  - reflexivity.
  - repeat constructor; apply fits_short; vm_compute; lia.
Defined.

(** * Emails stay distinct *)

Lemma complete_email (data : gmap string json) :
  complete data = true -> truthy (field_of data "email") = true.
Proof.
  unfold complete. intros H.
  apply andb_true_iff in H as [H _]. apply andb_true_iff in H as [H _].
  by apply andb_true_iff in H as [_ H].
Qed.

Lemma distinct_emails_operation (m : server) (w w' : world) :
  distinct_emails m w -> operation m w w' -> distinct_emails m w'.
Proof.
  intros (ads & Hfile & Hnd) Hop. destruct Hop as [request w Htext|w|w].
  - destruct request as [data|];
      [|exists ads; by rewrite save_admin_not_object].
    specialize (Htext data eq_refl).
    destruct (split_unfit ads) as [Hfit|(good & bad & rest & -> & Hg & Hb)].
    + rewrite (save_admin_store_cases m w ads) by done.
      destruct (complete data) eqn:Hc; simpl; [|by exists ads].
      destruct (email_match ads (field_of data "email")) eqn:Hm; [by exists ads|].
      destruct (encodes data); [|by exists ads].
      exists (ads ++ [record_of data]). simpl. rewrite lookup_insert_eq.
      split; [done|].
      destruct (Htext (complete_email data Hc)) as (e & He).
      rewrite map_app. simpl. apply NoDup_app. split; [done|].
      split; [|apply NoDup_singleton].
      intros x Hx Hx'. apply list_elem_of_singleton in Hx'. subst x.
      rewrite He in Hx. simpl in Hx.
      assert (email_match ads (field_of data "email") = true) as Habs
        by (apply email_match_spec; eauto).
      congruence.
    + exists (good ++ bad :: rest).
      rewrite (save_admin_unfit_cases m w good bad rest) by done.
      destruct (negb (complete data)); [done|].
      by destruct (email_match good (field_of data "email")).
  - exists ads. handler; unfold open_r, jsonify. rewrite Hfile.
    unfold lift. destruct (collect _) as [l|]; [|done]. by destruct (forallb sortable l).
  - exists []. rewrite clear_csv_cache_file. simpl. rewrite lookup_insert_eq.
    split; [reflexivity|apply NoDup_nil_2].
Qed.

(** X25: starting from the file the module creates, any sequence of
    Lists, exit hooks and Appends whose email, when one is given, is a
    text (the other values and all lengths being arbitrary) leaves a
    storage file of records with pairwise distinct emails. *)
Theorem text_emails_stay_distinct (m : server) (w : world) :
  rtc (operation m) (fresh m) w -> distinct_emails m w.
Proof.
  intros Hr.
  assert (distinct_emails m (fresh m)) as H0.
  { exists []. unfold fresh. simpl. rewrite lookup_singleton_eq.
    split; [reflexivity|apply NoDup_nil_2]. }
  revert H0. induction Hr as [|w1 w2 w3 Hs _ IH]; [done|].
  intros H1. apply IH. by apply (distinct_emails_operation m w1).
Qed.

Lemma text_emails_stay_distinct_witness :
  distinct_emails dev_server (snd (save_admin dev_server (Object alice) (fresh dev_server))).
Proof.
  apply (text_emails_stay_distinct dev_server).
  apply rtc_once. apply op_append.
  intros data Hd. injection Hd as <-. intros _. exists "a@x.com". reflexivity.
Defined.

(** * The entry point *)

(** X24: when PORT is not set, the server is run on port 8080 under every
    profile, with debug off exactly when the environment name is
    [production]. *)
Theorem run_arguments_default (int : string -> result Z)
    (environ : gmap string string) (base_dir : string) (m : server) :
  globals environ base_dir = Return m ->
  environ !! "PORT" = None ->
  run_arguments int environ m =
  Return (8080, negb (String.eqb (env m) "production")).
Proof.
  intros Hg Hp. unfold run_arguments. rewrite Hp. simpl.
  unfold globals in Hg.
  destruct (getitem config _) as [p|] eqn:Hc; [|discriminate].
  injection Hg as <-. simpl. unfold getitem in Hc.
  destruct (config !! _) as [p'|] eqn:Hl; [|discriminate]. injection Hc as ->.
  by destruct (config_lookup_cases _ _ Hl) as [[-> ->]|[[-> ->]|[[-> ->]|[-> ->]]]].
Qed.

Lemma run_arguments_default_witness :
  run_arguments (fun _ => Raise ValueError) production_environ production_server =
  Return (8080, negb (String.eqb (env production_server) "production")).
Proof.
  apply (run_arguments_default (fun _ => Raise ValueError) production_environ "/app"
           production_server); reflexivity.
Defined.

(** * A file with a foreign header *)

Lemma writerow_texts (s1 s2 : string) (ss : list string) :
  writerow (map JStr (s1 :: s2 :: ss)) = row_text s1 (s2 :: ss).
Proof.
  simpl map. rewrite writerow_text. simpl. f_equal. f_equal. f_equal.
  induction ss as [|s ss IH]; [done|]. simpl. by rewrite IH.
Qed.

(** X18: when the first line of the storage file names no [email] column
    and a data line follows, an Append that passes the validation answers
    500 with the text of the KeyError raised by [row["email"]], and the
    files are as before. *)
Theorem append_without_email_column (m : server) (w : world) (data : gmap string json)
    (h1 h2 : string) (hs : list string) (v1 v2 : string) (vs : list string)
    (rest : string) :
  files w !! csv_file_path m =
    Some (writerow (map JStr (h1 :: h2 :: hs)) +:+
          writerow (map JStr (v1 :: v2 :: vs)) +:+ rest) ->
  Forall fits (h1 :: h2 :: hs) -> Forall fits (v1 :: v2 :: vs) ->
  "email" ∉ h1 :: h2 :: hs ->
  complete data = true ->
  fst (save_admin m (Object data) w) = JsonDict false (StrOf (KeyError "email")) 500 /\
  files (snd (save_admin m (Object data) w)) = files w.
Proof.
  intros Hfile Hh Hv Hno Hc.
  rewrite (save_admin_scan m w _ data Hfile Hc).
  assert (email_exists
            (DictReader (writerow (map JStr (h1 :: h2 :: hs)) +:+
                         writerow (map JStr (v1 :: v2 :: vs)) +:+ rest))
            (field_of data "email") = Raise (KeyError "email")) as ->; [|done].
  unfold DictReader, reader. rewrite !writerow_texts.
  inversion Hh; subst. inversion Hv; subst.
  rewrite row_text_read by done. rewrite row_text_read by done.
  cbn [dict_rows email_exists]. unfold getitem.
  destruct (named (make_row (h1 :: h2 :: hs) (v1 :: v2 :: vs)) !! "email") as [c|] eqn:E;
    [|done].
  exfalso. apply Hno. apply (make_row_is_Some (h1 :: h2 :: hs) (v1 :: v2 :: vs)).
  by rewrite E.
Qed.

Lemma append_without_email_column_witness :
  fst (save_admin dev_server (Object alice) other_header) =
    JsonDict false (StrOf (KeyError "email")) 500 /\
  files (snd (save_admin dev_server (Object alice) other_header)) = files other_header.
Proof.
  apply (append_without_email_column dev_server other_header alice
           "name" "mail" [] "zoe" "z@x.com" [] "").
  - reflexivity.
  - repeat constructor; apply fits_short; simpl; lia.
  - repeat constructor; apply fits_short; simpl; lia.
  - intros H. repeat (apply elem_of_cons in H as [H|H]; [discriminate H|]).
    by apply elem_of_nil in H.
  - reflexivity.
Defined.
